(** * Teensy4TCXO: the calibration and tracking loop of [src/main.cpp]

    The program disciplines an interval timer to a GPS pulse-per-second input
    with the help of a 10 MHz TCXO counted by FreqCount.  This development
    embeds [ppsInterrupt], [intervalInterrupt] and [loop] as a small-step
    machine and proves the properties the specification states about them.

    - [uint32_t] values are integers in [0, 2^32) with the wrap-around of
      C's unsigned arithmetic written out ([wrap32]).
    - [double] values are primitive binary64 floats (IEEE 754, round to
      nearest even), so every product, quotient, difference and comparison
      of the program is computed bit for bit.
    - [Serial] output is kept as records of what is handed to [printf];
      [drift_field] gives the text of the drift, rounded to one decimal.
    - The two interrupt handlers and the main loop interleave statement by
      statement; [noInterrupts()] / [interrupts()] mask and unmask the
      handlers, and the main loop does not run while a handler is active. *)

From Stdlib Require Import String Ascii DecimalString.
From Stdlib Require Import ZArith List Bool Lia Floats Uint63.
Import ListNotations.

#[local] Set Warnings "-inexact-float".
#[local] Open Scope Z_scope.

(** ** Machine integers *)

Definition wrap32 (z : Z) : Z := z mod 4294967296.

Definition sub32 (a b : Z) : Z := wrap32 (a - b).

Definition add32 (a b : Z) : Z := wrap32 (a + b).

(** ** Doubles *)

(** The implicit conversion of a [uint32_t] (or [unsigned long]) to [double]. *)
Definition of_uint32 (z : Z) : float := PrimFloat.of_uint63 (Uint63.of_Z z).

(** ** Data model *)

(** The [volatile] globals, written by the interrupt handlers. *)
Record shared := {
  intervalCycles : Z;
  ppsCycles : Z;
  ppsTcxoCount : Z
}.

(** The non-volatile globals and the [static] variables of [loop]. *)
Record statics := {
  lastIntervalCycles : Z;
  lastPpsCycles : Z;
  lastPpsTcxoCount : Z;
  tcxoMicros : float;
  firstTimeCount : Z;
  firstTimeFlag : bool;
  interval : float;
  countRatio : float;
  intervalCount : Z
}.

(** The automatic variables of [loop] that live across statements. *)
Record locals := {
  ic : Z;
  dt : Z;
  pc : Z;
  tc : Z
}.

(** Calls made to [myTimer], oldest first. *)
Inductive timer_call :=
| Begin (period : float)
| Update (period : float).

(** Lines written to [Serial], oldest first.  [Drift seq minus us iv tcxo] is
    one record [seq,drift,interval,tcxo]; [minus] says that the format string
    carries the literal minus sign of line 138, [us] is the double handed to
    [%.1f].  The record keeps the arguments of [printf]; [drift_field] below
    is the text written for the drift. *)
Inductive line :=
| Waiting
| Tally (delta : Z)
| Calibrated
| Drift (seq : Z) (minus : bool) (us : float) (iv tcxo : float).

(** The peripherals as the program sees them: the calls made to the interval
    timer, whether [FreqCount.begin] has run, the count a completed gate
    window holds until [FreqCount.read] takes it, and the serial output. *)
Record periph := {
  timer_calls : list timer_call;
  freq_begun : bool;
  freq_ready : option Z;
  serial : list line
}.

(** Program points of [loop], named by the source line that runs next. *)
Inductive label :=
| L113 | L114 | L115 | L116 | L118 | L149
| L159 | L160 | L161 | L162 | L164.

Record machine := {
  sh : shared;
  st : statics;
  lo : locals;
  hw : periph;
  at_line : label;
  irq : bool;        (* interrupts enabled *)
  in_pps : bool      (* [ppsInterrupt] is between its two statements *)
}.

Definition init : machine := {|
  sh := {| intervalCycles := 0; ppsCycles := 0; ppsTcxoCount := 0 |};
  st := {| lastIntervalCycles := 0; lastPpsCycles := 0; lastPpsTcxoCount := 0;
           tcxoMicros := 1000000.0; firstTimeCount := 0; firstTimeFlag := true;
           interval := 1000000.0; countRatio := 1000000000000.0;
           intervalCount := 0 |};
  lo := {| ic := 0; dt := 0; pc := 0; tc := 0 |};
  hw := {| timer_calls := []; freq_begun := false; freq_ready := None;
           serial := [] |};
  at_line := L113;
  irq := true;
  in_pps := false
|}.

(** ** Drift classification (lines 133-146) *)

(** The sign prefix and the value printed for a cycle difference [dt]. *)
Definition drift_report (dt : Z) : bool * float :=
  let dtus := (of_uint32 dt / 600.0)%float in
  if (500000.0 <? dtus)%float && (dtus <? 1000000.0)%float
  then (true, (1000000.0 - dtus)%float)
  else (false, if (1000000.0 <? dtus)%float then 0.0%float else dtus).

(** The drift a record stands for: the printed value, negated under the
    literal minus sign. *)
Definition signed_us (minus : bool) (us : float) : float :=
  if minus then (- us)%float else us.

Definition reported_drift (dt : Z) : float :=
  signed_us (fst (drift_report dt)) (snd (drift_report dt)).

(** ** The blocks of [loop] *)

(** Lines 118-147. *)
Definition interval_block (l : locals) (s : statics) (h : periph)
  : statics * periph :=
  if ic l =? lastIntervalCycles s then (s, h)
  else
    let n := add32 (intervalCount s) 1 in
    let iv := (countRatio s * tcxoMicros s - 0.005)%float in
    let r := drift_report (dt l) in
    ({| lastIntervalCycles := ic l;
        lastPpsCycles := lastPpsCycles s;
        lastPpsTcxoCount := lastPpsTcxoCount s;
        tcxoMicros := tcxoMicros s;
        firstTimeCount := firstTimeCount s;
        firstTimeFlag := firstTimeFlag s;
        interval := iv;
        countRatio := countRatio s;
        intervalCount := n |},
     {| timer_calls := timer_calls h ++ [Update iv];
        freq_begun := freq_begun h;
        freq_ready := freq_ready h;
        serial := serial h ++ [Drift n (fst r) (snd r) iv (tcxoMicros s)] |}).

(** Lines 149-157: [FreqCount.available()], [FreqCount.read()]. *)
Definition freq_block (s : statics) (h : periph) : statics * periph :=
  match freq_ready h with
  | None => (s, h)
  | Some tcxoCount =>
    ({| lastIntervalCycles := lastIntervalCycles s;
        lastPpsCycles := lastPpsCycles s;
        lastPpsTcxoCount := lastPpsTcxoCount s;
        tcxoMicros := (10000000.0 / of_uint32 tcxoCount * 1000000.0)%float;
        firstTimeCount := firstTimeCount s;
        firstTimeFlag := firstTimeFlag s;
        interval := interval s;
        countRatio := countRatio s;
        intervalCount := intervalCount s |},
     {| timer_calls := timer_calls h;
        freq_begun := freq_begun h;
        freq_ready := None;
        serial := serial h |})
  end.

(** Lines 164-207. *)
Definition pps_block (l : locals) (s : statics) (h : periph)
  : statics * periph :=
  if pc l =? lastPpsCycles s then (s, h)
  else
    let dtt := sub32 (pc l) (lastPpsCycles s) in
    let ppsMicros := (of_uint32 dtt / 600.0)%float in
    if firstTimeCount s <? 10 then
      if firstTimeCount s =? 0 then
        ({| lastIntervalCycles := lastIntervalCycles s;
            lastPpsCycles := pc l;
            lastPpsTcxoCount := lastPpsTcxoCount s;
            tcxoMicros := tcxoMicros s;
            firstTimeCount := firstTimeCount s + 1;
            firstTimeFlag := firstTimeFlag s;
            interval := interval s;
            countRatio := countRatio s;
            intervalCount := intervalCount s |},
         {| timer_calls := timer_calls h;
            freq_begun := true;
            freq_ready := None;
            serial := serial h ++ [Waiting] |})
      else
        ({| lastIntervalCycles := lastIntervalCycles s;
            lastPpsCycles := pc l;
            lastPpsTcxoCount := tc l;
            tcxoMicros := tcxoMicros s;
            firstTimeCount := firstTimeCount s + 1;
            firstTimeFlag := firstTimeFlag s;
            interval := interval s;
            countRatio := countRatio s;
            intervalCount := intervalCount s |},
         {| timer_calls := timer_calls h;
            freq_begun := freq_begun h;
            freq_ready := freq_ready h;
            serial := serial h
                        ++ [Tally (sub32 (tc l) (lastPpsTcxoCount s)); Waiting] |})
    else if firstTimeFlag s then
      let ratio := (ppsMicros / tcxoMicros s)%float in
      let iv := (ratio * tcxoMicros s)%float in
      ({| lastIntervalCycles := lastIntervalCycles s;
          lastPpsCycles := pc l;
          lastPpsTcxoCount := lastPpsTcxoCount s;
          tcxoMicros := tcxoMicros s;
          firstTimeCount := firstTimeCount s;
          firstTimeFlag := false;
          interval := iv;
          countRatio := ratio;
          intervalCount := intervalCount s |},
       {| timer_calls := timer_calls h ++ [Begin iv];
          freq_begun := freq_begun h;
          freq_ready := freq_ready h;
          serial := serial h ++ [Calibrated] |})
    else
      ({| lastIntervalCycles := lastIntervalCycles s;
          lastPpsCycles := pc l;
          lastPpsTcxoCount := lastPpsTcxoCount s;
          tcxoMicros := tcxoMicros s;
          firstTimeCount := firstTimeCount s;
          firstTimeFlag := firstTimeFlag s;
          interval := interval s;
          countRatio := countRatio s;
          intervalCount := intervalCount s |},
       h).

(** ** Statements of [loop] *)

Definition with_lo (m : machine) (l : locals) (next : label) : machine :=
  {| sh := sh m; st := st m; lo := l; hw := hw m;
     at_line := next; irq := irq m; in_pps := in_pps m |}.

Definition with_irq (m : machine) (b : bool) (next : label) : machine :=
  {| sh := sh m; st := st m; lo := lo m; hw := hw m;
     at_line := next; irq := b; in_pps := in_pps m |}.

Definition with_block (m : machine) (r : statics * periph) (next : label)
  : machine :=
  {| sh := sh m; st := fst r; lo := lo m; hw := snd r;
     at_line := next; irq := irq m; in_pps := in_pps m |}.

(** One statement (or one block free of volatile accesses) of [loop]; after
    line 164 the Arduino core calls [loop] again. *)
Definition loop (m : machine) : machine :=
  let l := lo m in
  match at_line m with
  | L113 => with_irq m false L114
  | L114 =>
    with_lo m {| ic := intervalCycles (sh m); dt := dt l; pc := pc l; tc := tc l |}
            L115
  | L115 =>
    with_lo m {| ic := ic l; dt := sub32 (ic l) (ppsCycles (sh m));
                 pc := pc l; tc := tc l |} L116
  | L116 => with_irq m true L118
  | L118 => with_block m (interval_block l (st m) (hw m)) L149
  | L149 => with_block m (freq_block (st m) (hw m)) L159
  | L159 => with_irq m false L160
  | L160 =>
    with_lo m {| ic := ic l; dt := dt l; pc := ppsCycles (sh m); tc := tc l |}
            L161
  | L161 =>
    with_lo m {| ic := ic l; dt := dt l; pc := pc l;
                 tc := ppsTcxoCount (sh m) |} L162
  | L162 => with_irq m true L164
  | L164 => with_block m (pps_block l (st m) (hw m)) L113
  end.

(** ** Interrupt handlers *)

(** Line 70: [ppsCycles = ARM_DWT_CYCCNT]. *)
Definition ppsInterrupt_70 (cyccnt : Z) (m : machine) : machine :=
  {| sh := {| intervalCycles := intervalCycles (sh m);
              ppsCycles := wrap32 cyccnt;
              ppsTcxoCount := ppsTcxoCount (sh m) |};
     st := st m; lo := lo m; hw := hw m;
     at_line := at_line m; irq := irq m; in_pps := true |}.

(** The 32-bit tally assembled from the two 16-bit counter registers. *)
Definition tally (cntr hold : Z) : Z :=
  wrap32 (Z.lor (cntr mod 65536) (Z.shiftl (hold mod 65536) 16)).

(** Line 73: [ppsTcxoCount = TMRx->CH[2].CNTR | TMRx->CH[3].HOLD << 16]. *)
Definition ppsInterrupt_73 (cntr hold : Z) (m : machine) : machine :=
  {| sh := {| intervalCycles := intervalCycles (sh m);
              ppsCycles := ppsCycles (sh m);
              ppsTcxoCount := tally cntr hold |};
     st := st m; lo := lo m; hw := hw m;
     at_line := at_line m; irq := irq m; in_pps := false |}.

(** Line 78: [intervalCycles = ARM_DWT_CYCCNT]. *)
Definition intervalInterrupt (cyccnt : Z) (m : machine) : machine :=
  {| sh := {| intervalCycles := wrap32 cyccnt;
              ppsCycles := ppsCycles (sh m);
              ppsTcxoCount := ppsTcxoCount (sh m) |};
     st := st m; lo := lo m; hw := hw m;
     at_line := at_line m; irq := irq m; in_pps := in_pps m |}.

(** FreqCount's gate interrupt: a window is complete, its count is held for
    [FreqCount.read]. *)
Definition gate_done (count : Z) (m : machine) : machine :=
  {| sh := sh m; st := st m; lo := lo m;
     hw := {| timer_calls := timer_calls (hw m);
              freq_begun := freq_begun (hw m);
              freq_ready := Some (wrap32 count);
              serial := serial (hw m) |};
     at_line := at_line m; irq := irq m; in_pps := in_pps m |}.

(** ** The interleaving *)

Inductive event :=
| PpsEnter (cyccnt : Z)       (* rising edge on pin 22: handler runs line 70 *)
| PpsLatch (cntr hold : Z)    (* the handler runs line 73 and returns *)
| TimerFire (cyccnt : Z)      (* the interval timer fires *)
| GateDone (count : Z)        (* FreqCount completes a gate window *)
| Main.                       (* [loop] runs its next statement *)

Definition is_begin (c : timer_call) : bool :=
  match c with Begin _ => true | Update _ => false end.

Definition timer_running (m : machine) : bool :=
  existsb is_begin (timer_calls (hw m)).

(** [step m e] is [None] when [e] cannot happen in [m]: a handler starts only
    with interrupts enabled, [ppsInterrupt] does not nest in itself, the timer
    fires only once [myTimer.begin] was called, FreqCount counts only once
    [FreqCount.begin] was called, and [loop] resumes only after the handler
    that pre-empted it has returned. *)
Definition step (m : machine) (e : event) : option machine :=
  match e with
  | PpsEnter c =>
    if irq m && negb (in_pps m) then Some (ppsInterrupt_70 c m) else None
  | PpsLatch cntr hold =>
    if in_pps m then Some (ppsInterrupt_73 cntr hold m) else None
  | TimerFire c =>
    if irq m && timer_running m then Some (intervalInterrupt c m) else None
  | GateDone n =>
    if irq m && freq_begun (hw m) then Some (gate_done n m) else None
  | Main =>
    if in_pps m then None else Some (loop m)
  end.

Fixpoint run (m : machine) (tr : list event) : option machine :=
  match tr with
  | [] => Some m
  | e :: tr' =>
    match step m e with
    | Some m' => run m' tr'
    | None => None
    end
  end.

(** ** Observables of a run *)

(** How many of the steps of a run satisfy [p] (counted up to the first event
    that cannot happen). *)
Fixpoint count_steps (p : machine -> event -> bool) (m : machine)
         (tr : list event) : nat :=
  match tr with
  | [] => O
  | e :: tr' =>
    match step m e with
    | Some m' => ((if p m e then 1 else 0) + count_steps p m' tr')%nat
    | None => O
    end
  end.

(** The step is [loop] entering the body of [if( pc != lastPpsCycles )]. *)
Definition observes_pps (m : machine) (e : event) : bool :=
  match e, at_line m with
  | Main, L164 => negb (pc (lo m) =? lastPpsCycles (st m))
  | _, _ => false
  end.

(** The step is [loop] running lines 197-205, which assign [countRatio]. *)
Definition calibrates (m : machine) (e : event) : bool :=
  observes_pps m e && negb (firstTimeCount (st m) <? 10) && firstTimeFlag (st m).

(** The step is [loop] entering the body of [if( ic != lastIntervalCycles )]. *)
Definition observes_interval (m : machine) (e : event) : bool :=
  match e, at_line m with
  | Main, L118 => negb (ic (lo m) =? lastIntervalCycles (st m))
  | _, _ => false
  end.

Definition is_edge (e : event) : bool :=
  match e with PpsEnter _ => true | _ => false end.

Definition is_gate (e : event) : bool :=
  match e with GateDone _ => true | _ => false end.

(** Reference edges and completed gate windows of a trace. *)
Definition edges (tr : list event) : nat := length (filter is_edge tr).

Definition gates (tr : list event) : nat := length (filter is_gate tr).

(** The captures [(ppsCycles, ppsTcxoCount)] of the reference edges whose
    handler has returned, oldest first; [pending] is the cycle count of an
    edge whose handler is still between lines 70 and 73. *)
Fixpoint captures_from (pending : option Z) (tr : list event)
  : list (Z * Z) :=
  match tr with
  | [] => []
  | PpsEnter c :: tr' => captures_from (Some (wrap32 c)) tr'
  | PpsLatch cntr hold :: tr' =>
    match pending with
    | Some c => (c, tally cntr hold) :: captures_from None tr'
    | None => captures_from None tr'
    end
  | _ :: tr' => captures_from pending tr'
  end.

Definition captures (tr : list event) : list (Z * Z) := captures_from None tr.

(** The capture the handlers have published by the end of [tr]; the globals
    start at zero. *)
Definition latest_capture (tr : list event) : Z * Z :=
  last (captures tr) (0, 0).

Definition is_drift (l : line) : bool :=
  match l with Drift _ _ _ _ _ => true | _ => false end.

(** The state a run from [init] ends in ([init] if some event of the trace
    cannot happen). *)
Definition final (tr : list event) : machine :=
  match run init tr with Some m => m | None => init end.

(** One full pass through [loop]: its eleven statements. *)
Definition pass : list event := repeat Main 11.

(** A reference edge whose handler reads cycle count [c] and tally [t]. *)
Definition edge (c t : Z) : list event :=
  [PpsEnter c; PpsLatch (t mod 65536) (t / 65536)].

(** ** Scenarios *)

(** [x] prints as [y] to one decimal place. *)
Definition approx (x y : float) : bool := (abs (x - y) <? 0.05)%float.

(** The ideal reference: edge [k] arrives 600,000,000 cycles (one second)
    after edge [k-1], the first one after the two seconds of [setup]; the
    tally has advanced by 10,000,000 pulses each time. *)
Definition ideal_edge (k : Z) : list event :=
  edge (1200000000 + k * 600000000) (k * 10000000).

(** Edge 1 starts FreqCount; from then on every second completes a gate
    window of exactly 10,000,000 pulses, and [loop] makes a pass. *)
Definition ideal_second (k : Z) : list event :=
  ideal_edge k ++ GateDone 10000000 :: pass.

Definition ideal_warmup : list event :=
  ideal_edge 0 ++ pass ++ flat_map ideal_second [1; 2; 3; 4; 5; 6; 7; 8; 9].

(** The run up to and including the pass that calibrates. *)
Definition ideal_run : list event := ideal_warmup ++ ideal_second 10.

(** The next edge arrives, the timer fires 6,000 cycles (10 us) after it and
    [loop] makes another pass. *)
Definition ideal_tracking : list event :=
  ideal_run ++ ideal_edge 11
    ++ TimerFire (1200000000 + 11 * 600000000 + 6000) :: pass.

(** The timer fires exactly 600,000,000 cycles after edge 10 instead, before
    edge 11 is handled, and [loop] makes a pass. *)
Definition ideal_full_span : list event :=
  ideal_run ++ TimerFire (1200000000 + 11 * 600000000) :: pass.


(** The ideal run stopped when [loop] is about to run line 164 of the pass
    that calibrates. *)
Definition ideal_at_164 : list event :=
  ideal_warmup ++ ideal_edge 10 ++ GateDone 10000000 :: repeat Main 10.

(** The first edge, and [loop] stopped right after the copies of lines
    160-161. *)
Definition first_edge_at_162 : list event := ideal_edge 0 ++ repeat Main 9.

(** A 100 Hz reference: eleven edges 6,000,000 cycles (10 ms) apart, a pass
    of [loop] after each; the one-second gate window has not completed. *)
Definition brisk_edge (k : Z) : list event :=
  edge (1200000000 + k * 6000000) (k * 100000) ++ pass.

Definition brisk_run : list event :=
  flat_map brisk_edge [0; 1; 2; 3; 4; 5; 6; 7; 8; 9; 10].

(** The oscillator runs 5 ppm fast: a window of 10,000,050 pulses is read. *)
Definition fast_window : machine :=
  {| sh := sh init; st := st init; lo := lo init;
     hw := {| timer_calls := []; freq_begun := true;
              freq_ready := Some 10000050; serial := [] |};
     at_line := L149; irq := true; in_pps := false |}.

(** ** Invariants of the runs *)

(** *** Before and after calibration *)

Definition before_calibration (m : machine) : Prop :=
  intervalCycles (sh m) = 0 /\ ic (lo m) = 0 /\
  lastIntervalCycles (st m) = 0 /\ intervalCount (st m) = 0 /\
  timer_calls (hw m) = [] /\ filter is_drift (serial (hw m)) = [] /\
  firstTimeCount (st m) <= 10.

Definition after_calibration (m : machine) : Prop :=
  firstTimeCount (st m) = 10 /\
  exists p rest,
    timer_calls (hw m) = Begin p :: rest /\ existsb is_begin rest = false.

Definition drift_line_ok (l : line) : Prop :=
  match l with
  | Drift _ minus us _ _ => exists dt, (minus, us) = drift_report dt
  | _ => True
  end.

Definition tracking_inv (m : machine) : Prop :=
  (if firstTimeFlag (st m) then before_calibration m else after_calibration m)
  /\ Forall drift_line_ok (serial (hw m)).

(** *** Counting observations, calibrations and edges *)

(** How many more times [loop] can enter [if( pc != lastPpsCycles )] if no
    further reference edge arrives. *)
Definition pending_pps (m : machine) : nat :=
  let P := ppsCycles (sh m) in
  let last := lastPpsCycles (st m) in
  match at_line m with
  | L161 | L162 | L164 =>
    if pc (lo m) =? last then (if P =? last then 0%nat else 1%nat)
    else (if P =? pc (lo m) then 1%nat else 2%nat)
  | _ => if P =? last then 0%nat else 1%nat
  end.

(** The state after [obs] observed captures, [cal] calibrations, [edg]
    reference edges and [gat] completed gate windows. *)
Definition counting_inv (obs cal edg gat : nat) (m : machine) : Prop :=
  (obs + pending_pps m <= edg)%nat /\
  firstTimeCount (st m) = Z.of_nat (Nat.min obs 10) /\
  firstTimeFlag (st m) = (obs <=? 10)%nat /\
  cal = (if (obs <=? 10)%nat then 0 else 1)%nat /\
  (gat = 0%nat ->
   freq_ready (hw m) = None /\ tcxoMicros (st m) = 1000000.0%float).

(** *** The hand-off of a capture to [loop] *)

(** What one event adds to the published captures, and the edge left
    pending. *)
Definition capture_step (pending : option Z) (e : event)
  : list (Z * Z) * option Z :=
  match e with
  | PpsEnter c => ([], Some (wrap32 c))
  | PpsLatch cntr hold =>
    (match pending with Some c => [(c, tally cntr hold)] | None => [] end,
     None)
  | _ => ([], pending)
  end.

(** With [caps] published and [pending] in flight: the globals hold the
    latest published capture unless the handler is half-way; the handler is
    never half-way while interrupts are masked; and inside the critical
    section of lines 159-162 the locals are copies of the globals. *)
Definition handoff_inv (caps : list (Z * Z)) (pending : option Z)
           (m : machine) : Prop :=
  pending = (if in_pps m then Some (ppsCycles (sh m)) else None) /\
  (in_pps m = false ->
   (ppsCycles (sh m), ppsTcxoCount (sh m)) = last caps (0, 0)) /\
  (irq m = false -> in_pps m = false) /\
  match at_line m with
  | L160 => irq m = false
  | L161 => irq m = false /\ pc (lo m) = ppsCycles (sh m)
  | L162 =>
    irq m = false /\
    (pc (lo m), tc (lo m)) = (ppsCycles (sh m), ppsTcxoCount (sh m))
  | L164 => In (pc (lo m), tc (lo m)) ((0, 0) :: caps)
  | _ => True
  end.

(** *** Calls to the timer *)

(** The calls one step makes to [myTimer]. *)
Definition new_timer_calls (m : machine) (e : event) : list timer_call :=
  if calibrates m e then
    [Begin (of_uint32 (sub32 (pc (lo m)) (lastPpsCycles (st m))) / 600.0
            / tcxoMicros (st m) * tcxoMicros (st m))%float]
  else if observes_interval m e then
    [Update (countRatio (st m) * tcxoMicros (st m) - 0.005)%float]
  else [].

(** ** Further observables *)

(** The two critical sections of [loop]: between [noInterrupts()] and
    [interrupts()]. *)
Definition in_critical (l : label) : bool :=
  match l with
  | L114 | L115 | L116 | L160 | L161 | L162 => true
  | _ => false
  end.

Definition is_waiting (l : line) : bool :=
  match l with Waiting => true | _ => false end.

Definition is_tally (l : line) : bool :=
  match l with Tally _ => true | _ => false end.

Definition is_calibrated (l : line) : bool :=
  match l with Calibrated => true | _ => false end.

(** The warm-up lines after [n] observed captures with tally deltas [ds]:
    "waiting..." for the first capture, then a delta and "waiting..." for each
    further one. *)
Definition warmup_lines (ds : list Z) : list line :=
  Waiting :: flat_map (fun d => [Tally d; Waiting]) ds.

Definition call_period (c : timer_call) : float :=
  match c with Begin p | Update p => p end.

Definition line_seq (l : line) : Z :=
  match l with Drift seq _ _ _ _ => seq | _ => 0 end.

Definition line_iv (l : line) : float :=
  match l with Drift _ _ _ iv _ => iv | _ => 0.0%float end.

(** The ideal scenario stopped when [loop] is about to run line 164 with
    its second capture. *)
Definition second_edge_at_164 : list event :=
  ideal_edge 0 ++ pass ++ ideal_edge 1 ++ repeat Main 10.

(** ** Invariant of the output *)

(** What the serial line and the timer have received, in terms of the
    statics: nothing before the first observed capture; then the warm-up
    lines; then, once calibrated, the calibration message followed by one
    drift record per [update], numbered from 1, each carrying the period
    handed to [update]. *)
Definition output_inv (m : machine) : Prop :=
  let s := st m in
  let h := hw m in
  0 <= firstTimeCount s <= 10 /\
  0 <= intervalCount s < 4294967296 /\
  freq_begun h = (1 <=? firstTimeCount s) /\
  (firstTimeCount s = 0 ->
   serial h = [] /\ freq_ready h = None /\
   tcxoMicros s = 1000000.0%float) /\
  (firstTimeCount s <= 1 -> lastPpsTcxoCount s = 0) /\
  (firstTimeFlag s = false -> firstTimeCount s = 10) /\
  (firstTimeFlag s = true ->
   interval s = 1000000.0%float /\ countRatio s = 1000000000000.0%float) /\
  (0 < firstTimeCount s ->
   exists (ds : list Z) (drifts : list line),
     Z.of_nat (length ds) = firstTimeCount s - 1 /\
     forallb is_drift drifts = true /\
     if firstTimeFlag s then
       serial h = warmup_lines ds /\ drifts = []
     else
       serial h = warmup_lines ds ++ Calibrated :: drifts /\
       map line_seq drifts
       = map (fun k => wrap32 (Z.of_nat k)) (seq 1 (length drifts)) /\
       intervalCount s = wrap32 (Z.of_nat (length drifts)) /\
       exists p,
         timer_calls h = Begin p :: map Update (map line_iv drifts) /\
         interval s = last (map line_iv drifts) p).

(** ** Ranges *)

Definition uint32 (z : Z) : Prop := 0 <= z < 4294967296.

(** Every [uint32_t] of the program holds a 32-bit value. *)
Definition uint32_inv (m : machine) : Prop :=
  uint32 (intervalCycles (sh m)) /\ uint32 (ppsCycles (sh m)) /\
  uint32 (ppsTcxoCount (sh m)) /\
  uint32 (lastIntervalCycles (st m)) /\ uint32 (lastPpsCycles (st m)) /\
  uint32 (lastPpsTcxoCount (st m)) /\ uint32 (intervalCount (st m)) /\
  uint32 (ic (lo m)) /\ uint32 (dt (lo m)) /\ uint32 (pc (lo m)) /\
  uint32 (tc (lo m)) /\
  match freq_ready (hw m) with Some n => uint32 n | None => True end.

(** ** Scenarios for the further properties *)

(** The ideal scenario continued for a second after calibration. *)
Definition ideal_next_second : list event :=
  ideal_edge 11 ++ TimerFire (1200000000 + 11 * 600000000 + 6000) :: pass.

(** After calibration: an edge captured 1,000 cycles before the counter
    wraps, the timer firing 6,000 cycles after the edge, and [loop] about to
    run line 114. *)
Definition wrap_at_114 : list event :=
  ideal_run ++ edge 4294966296 0 ++ [TimerFire (4294966296 + 6000); Main].

(** The same, two statements later: [loop] about to run line 116. *)
Definition wrap_at_116 : list event := wrap_at_114 ++ [Main; Main].

(** The oscillator is dead: the reference is ideal but every gate window
    counts zero pulses.  Stopped when [loop] is about to run line 164 of the
    pass that calibrates. *)
Definition dead_second (k : Z) : list event :=
  edge (1200000000 + k * 600000000) 0 ++ GateDone 0 :: pass.

Definition dead_at_164 : list event :=
  edge 1200000000 0 ++ pass
    ++ flat_map dead_second [1; 2; 3; 4; 5; 6; 7; 8; 9]
    ++ edge (1200000000 + 10 * 600000000) 0 ++ GateDone 0 :: repeat Main 10.

(** ** The control side of the state *)

(** Everything the period programmed into the timer depends on: the interval
    capture and its bookkeeping, the oscillator measurement, the calibration
    and the peripherals' state.  Left out: the reference capture
    ([ppsCycles], [ppsTcxoCount]), its copies and bookkeeping ([dt], [pc],
    [tc], [lastPpsCycles], [lastPpsTcxoCount]) and the serial output. *)
Definition control (m : machine) :=
  (intervalCycles (sh m), lastIntervalCycles (st m), intervalCount (st m),
   ic (lo m), tcxoMicros (st m), interval (st m), countRatio (st m),
   firstTimeFlag (st m), firstTimeCount (st m),
   timer_calls (hw m), freq_begun (hw m), freq_ready (hw m),
   at_line m, irq m).

Definition is_pps (e : event) : bool :=
  match e with PpsEnter _ | PpsLatch _ _ => true | _ => false end.

(** A trace with the reference edges taken out. *)
Definition without_pps (tr : list event) : list event :=
  filter (fun e => negb (is_pps e)) tr.

(** ** Invariants of the masking and of the control side *)

(** Interrupts are masked exactly in the critical sections, and never while
    [ppsInterrupt] is half-way. *)
Definition masking_inv (m : machine) : Prop :=
  irq m = negb (in_critical (at_line m)) /\
  (in_pps m = true -> irq m = true).

(** Two calibrated states that agree on the control side; in the second no
    reference handler is active. *)
Definition same_control (m1 m2 : machine) : Prop :=
  control m1 = control m2 /\
  firstTimeFlag (st m1) = false /\ 10 <= firstTimeCount (st m1) /\
  in_pps m2 = false.

(** ** Invariant of the first critical section *)

(** Between the copies of lines 114-115 and [interrupts()], the locals are a
    snapshot of the globals. *)
Definition snapshot_inv (m : machine) : Prop :=
  irq m = negb (in_critical (at_line m)) /\
  match at_line m with
  | L115 => ic (lo m) = intervalCycles (sh m)
  | L116 =>
    ic (lo m) = intervalCycles (sh m) /\
    dt (lo m) = sub32 (intervalCycles (sh m)) (ppsCycles (sh m))
  | _ => True
  end.

(** ** Counting firings *)

Definition is_fire (e : event) : bool :=
  match e with TimerFire _ => true | _ => false end.

(** Timer firings of a trace. *)
Definition fires (tr : list event) : nat := length (filter is_fire tr).

(** How many more times [loop] can enter [if( ic != lastIntervalCycles )] if
    the timer does not fire again. *)
Definition pending_interval (m : machine) : nat :=
  let I := intervalCycles (sh m) in
  let last := lastIntervalCycles (st m) in
  match at_line m with
  | L115 | L116 | L118 =>
    if ic (lo m) =? last then (if I =? last then 0%nat else 1%nat)
    else (if I =? ic (lo m) then 1%nat else 2%nat)
  | _ => if I =? last then 0%nat else 1%nat
  end.

(** After [fired] firings: the drift records written and those still to come
    without a further firing are at most [fired]. *)
Definition firing_inv (fired : nat) (m : machine) : Prop :=
  (length (filter is_drift (serial (hw m))) + pending_interval m <= fired)%nat.

(** ** Rounding, unfolded *)

(** The second half of [binary_round_aux] for a positive result: the rounded
    mantissa [r] is renormalised (a carry into a 54th bit shifts it once
    more) and checked for overflow. *)
Definition finish_round (r e : Z) : spec_float :=
  let '(mrs, e') := shr_fexp prec emax r e loc_Exact in
  match shr_m mrs with
  | Z0 => S754_zero false
  | Zpos m => if e' <=? emax - prec then S754_finite false m e'
              else S754_infinity false
  | Zneg _ => S754_nan
  end.

(** ** The text of a drift record *)

(** [n / d] rounded to the nearest integer, ties to the even one ([d] > 0). *)
Definition round_half_even (n d : Z) : Z :=
  let q := n / d in
  match 2 * (n mod d) ?= d with
  | Lt => q
  | Gt => q + 1
  | Eq => if Z.even q then q else q + 1
  end.

(** The sign of a finite double and its magnitude in units of
    [10 ^ - digits], rounded to the nearest unit: the digits that [printf]
    writes for ["%.<digits>f"], which converts the exact binary value and
    rounds it correctly. *)
Definition scaled (digits : Z) (x : float) : option (bool * Z) :=
  match Prim2SF x with
  | S754_zero s => Some (s, 0)
  | S754_finite s m e =>
    Some (s, if 0 <=? e then Zpos m * 2 ^ e * 10 ^ digits
             else round_half_even (Zpos m * 10 ^ digits) (2 ^ (- e)))
  | _ => None
  end.

Definition decimal (z : Z) : string := NilZero.string_of_int (Z.to_int z).

(** The last [digits] decimal digits of [q]. *)
Fixpoint fraction (digits : nat) (q : Z) : string :=
  match digits with
  | O => EmptyString
  | S k => (fraction k (q / 10) ++ decimal (q mod 10))%string
  end.

(** The text of ["%.<digits>f"] for a finite double (the texts of infinities
    and NaNs are not needed and left out). *)
Definition fixed_text (digits : nat) (x : float) : option string :=
  match scaled (Z.of_nat digits) x with
  | Some (s, q) =>
    Some ((if s then "-" else "")
            ++ decimal (q / 10 ^ Z.of_nat digits) ++ "."
            ++ fraction digits (q mod 10 ^ Z.of_nat digits))%string
  | None => None
  end.

(** The drift field of a record as lines 138 and 145 print it: the literal
    minus sign of line 138, if any, and ["%.1f"] of the value. *)
Definition drift_field (l : line) : option string :=
  match l with
  | Drift _ minus us _ _ =>
    option_map (String.append (if minus then "-" else "")) (fixed_text 1 us)
  | _ => None
  end.

(** One second after calibration the reference edge arrives and the timer
    fires [d] cycles after it; [loop] makes a pass. *)
Definition fired_after (d : Z) : list event :=
  ideal_run ++ ideal_edge 11
    ++ TimerFire (1200000000 + 11 * 600000000 + d) :: pass.

(** ** Keeping pace with the timer *)












(** ** Binary64 constants and shapes used in the proofs *)

(** 500,000.0 and 1,000,000.0 share the mantissa 500000 * 2^34. *)
Definition sf_half : spec_float := S754_finite false 8589934592000000 (-34).

Definition sf_full : spec_float := S754_finite false 8589934592000000 (-33).

(** Zero, a positive finite number or plus infinity. *)
Definition SFnonneg (x : spec_float) : Prop :=
  match x with
  | S754_zero false | S754_infinity false | S754_finite false _ _ => True
  | _ => False
  end.

(** * Floating-point facts *)

Lemma Prim2SF_half : Prim2SF 500000.0 = sf_half.
Proof. vm_compute. reflexivity. Qed.

Lemma Prim2SF_full : Prim2SF 1000000.0 = sf_full.
Proof. vm_compute. reflexivity. Qed.

Lemma SFcompare_antisym (x y : spec_float) :
  SFcompare y x = option_map CompOpp (SFcompare x y).
Proof.
  destruct x as [sx|sx| |sx mx ex], y as [sy|sy| |sy my ey]; simpl;
    try destruct sx; try destruct sy; simpl; try reflexivity;
    rewrite (Z.compare_antisym ex ey); destruct (ex ?= ey); simpl;
    try reflexivity;
    rewrite (Pos.compare_cont_antisym mx my Eq); simpl;
    rewrite ?CompOpp_involutive; reflexivity.
Qed.

Lemma ltb_asym (x y : float) : (x <? y)%float = true -> (y <? x)%float = false.
Proof.
  rewrite !FloatAxioms.ltb_spec. unfold SFltb. rewrite (SFcompare_antisym (Prim2SF x) (Prim2SF y)).
  destruct (SFcompare (Prim2SF x) (Prim2SF y)) as [[ | | ]|]; simpl;
    congruence.
Qed.

Lemma eqb_not_ltb (x y : float) :
  (x =? y)%float = true -> (x <? y)%float = false /\ (y <? x)%float = false.
Proof.
  rewrite FloatAxioms.eqb_spec, !FloatAxioms.ltb_spec. unfold SFeqb, SFltb.
  rewrite (SFcompare_antisym (Prim2SF x) (Prim2SF y)).
  destruct (SFcompare (Prim2SF x) (Prim2SF y)) as [[ | | ]|]; simpl;
    split; congruence.
Qed.

(** At or below half the span is neither above half nor above the full
    span. *)
Lemma leb_half_not_above (x : float) :
  (x <=? 500000.0)%float = true ->
  (500000.0 <? x)%float = false /\ (1000000.0 <? x)%float = false.
Proof.
  rewrite FloatAxioms.leb_spec, !FloatAxioms.ltb_spec, Prim2SF_half, Prim2SF_full.
  unfold SFleb, SFltb, sf_half, sf_full.
  destruct (Prim2SF x) as [s|s| |s m e]; try destruct s; cbn [SFcompare];
    try (intros; split; congruence).
  destruct (Z.compare_spec e (-34)) as [->|Hlt|Hgt].
  - change (-34 ?= -34) with Eq. change (-33 ?= -34) with Gt.
    pose proof (Pos.compare_cont_antisym m 8589934592000000 Eq) as HA.
    cbn [CompOpp] in HA. rewrite <- HA.
    destruct (Pos.compare_cont Eq m 8589934592000000); cbn [CompOpp];
      intros; split; congruence.
  - intros _. destruct (Z.compare_spec (-34) e); try lia.
    destruct (Z.compare_spec (-33) e); try lia; split; reflexivity.
  - intros; congruence.
Qed.

(** *** Rounding of values that need none *)

Lemma digits2_pos_bounds (m : positive) :
  2 ^ (Zpos (digits2_pos m) - 1) <= Zpos m < 2 ^ Zpos (digits2_pos m).
Proof.
  induction m as [m IH|m IH|]; cbn [digits2_pos].
  - rewrite Pos2Z.inj_succ, (Pos2Z.inj_xI m).
    replace (Z.succ (Zpos (digits2_pos m)) - 1)
      with (Z.succ (Zpos (digits2_pos m) - 1)) by lia.
    rewrite !Z.pow_succ_r by lia. lia.
  - rewrite Pos2Z.inj_succ, (Pos2Z.inj_xO m).
    replace (Z.succ (Zpos (digits2_pos m)) - 1)
      with (Z.succ (Zpos (digits2_pos m) - 1)) by lia.
    rewrite !Z.pow_succ_r by lia. lia.
  - simpl. lia.
Qed.

Lemma digits2_pos_le (m : positive) (d : Z) :
  0 <= d -> Zpos m < 2 ^ d -> Zpos (digits2_pos m) <= d.
Proof.
  intros Hd Hm. destruct (Z_le_gt_dec (Zpos (digits2_pos m)) d) as [|Hgt]; auto.
  pose proof (digits2_pos_bounds m) as [Hlo _].
  assert (2 ^ d <= 2 ^ (Zpos (digits2_pos m) - 1))
    by (apply Z.pow_le_mono_r; lia).
  lia.
Qed.

Lemma digits2_pos_ge (m : positive) (d : Z) :
  2 ^ (d - 1) <= Zpos m -> d <= Zpos (digits2_pos m).
Proof.
  intros Hm. destruct (Z_le_gt_dec d (Zpos (digits2_pos m))) as [|Hgt]; auto.
  pose proof (digits2_pos_bounds m) as [_ Hhi].
  assert (2 ^ Zpos (digits2_pos m) <= 2 ^ (d - 1))
    by (apply Z.pow_le_mono_r; lia).
  lia.
Qed.

Lemma iter_xO_digits (k m : positive) :
  digits2_pos (Pos.iter xO m k) = (digits2_pos m + k)%positive.
Proof.
  induction k as [|k IH] using Pos.peano_ind.
  - simpl. lia.
  - rewrite Pos.iter_succ. cbn [digits2_pos]. rewrite IH. lia.
Qed.

Lemma iter_xO_value (k m : positive) :
  Zpos (Pos.iter xO m k) = Zpos m * 2 ^ Zpos k.
Proof.
  induction k as [|k IH] using Pos.peano_ind.
  - simpl. lia.
  - rewrite Pos.iter_succ, (Pos2Z.inj_xO (Pos.iter xO m k)), IH,
      Pos2Z.inj_succ, Z.pow_succ_r by lia. lia.
Qed.

(** A mantissa of exactly 53 bits with an exponent in range is returned as
    it is. *)
Lemma binary_round_aux_53 (s : bool) (m : positive) (e : Z) :
  Zpos (digits2_pos m) = 53 -> -1074 <= e <= 971 ->
  binary_round_aux prec emax s (Zpos m) e loc_Exact = S754_finite s m e.
Proof.
  intros Hd He.
  assert (Hshift : fexp prec emax (Zpos (digits2_pos m) + e) - e = 0).
  { rewrite Hd. unfold fexp, SpecFloat.emin, prec, emax. lia. }
  unfold binary_round_aux, shr_fexp. cbn [Zdigits2 shr_record_of_loc].
  rewrite Hshift. cbn [shr shr_m loc_of_shr_record round_nearest_even Zdigits2
                       shr_record_of_loc].
  rewrite Hshift. cbn [shr shr_m].
  replace (e <=? emax - prec) with true; [reflexivity|].
  symmetry. apply Z.leb_le. unfold emax, prec. lia.
Qed.

(** A positive integer below 2^53 is normalised without rounding: the result
    is a positive finite number whose exponent has dropped by the number of
    leading bits missing. *)
Lemma binary_round_exact (m : positive) (e : Z) :
  Zpos m < 9007199254740992 -> -1021 <= e <= 971 ->
  exists m' e',
    binary_round prec emax false m e = S754_finite false m' e' /\
    e' = e - (53 - Zpos (digits2_pos m)) /\
    Zpos m' = Zpos m * 2 ^ (53 - Zpos (digits2_pos m)).
Proof.
  intros Hm He.
  change 9007199254740992 with (2 ^ 53) in Hm.
  pose proof (digits2_pos_le m 53 ltac:(lia) Hm) as Hd.
  assert (Hf : fexp prec emax (Zpos (digits2_pos m) + e)
               = e - (53 - Zpos (digits2_pos m))).
  { unfold fexp, SpecFloat.emin, prec, emax. lia. }
  unfold binary_round. rewrite Hf. unfold shl_align.
  replace (e - (53 - Zpos (digits2_pos m)) - e)
    with (Zpos (digits2_pos m) - 53) by lia.
  destruct (Zpos (digits2_pos m) - 53) as [|p|p] eqn:Hk; try lia.
  - exists m, e. rewrite binary_round_aux_53 by lia.
    replace (53 - Zpos (digits2_pos m)) with 0 by lia.
    repeat split; lia.
  - exists (Pos.iter xO m p), (e - (53 - Zpos (digits2_pos m))).
    rewrite binary_round_aux_53.
    + replace (53 - Zpos (digits2_pos m)) with (Zpos p) by lia.
      repeat split. apply iter_xO_value.
    + rewrite iter_xO_digits, Pos2Z.inj_add. lia.
    + lia.
Qed.

(** *** Doubles strictly between half and full span *)

Lemma compare_cont_lt (a b : positive) :
  Pos.compare_cont Eq a b = Lt -> Zpos a < Zpos b.
Proof. intros H. pose proof (proj1 (Pos.compare_lt_iff a b) H). lia. Qed.

Lemma compare_cont_gt (a b : positive) :
  Pos.compare_cont Eq a b = Gt -> Zpos b < Zpos a.
Proof. intros H. pose proof (proj1 (Pos.compare_gt_iff a b) H). lia. Qed.

Lemma lt_compare_cont (a b : positive) :
  Zpos a < Zpos b -> Pos.compare_cont Eq a b = Lt.
Proof. intros H. apply (proj2 (Pos.compare_lt_iff a b)). lia. Qed.

Lemma gt_compare_cont (a b : positive) :
  Zpos b < Zpos a -> Pos.compare_cont Eq a b = Gt.
Proof. intros H. apply (proj2 (Pos.compare_gt_iff a b)). lia. Qed.

(** Such a double is positive and finite with exponent -34 or -33. *)
Lemma between_shape (x : float) :
  (500000.0 <? x)%float = true -> (x <? 1000000.0)%float = true ->
  exists m e,
    Prim2SF x = S754_finite false m e /\
    Zpos (digits2_pos m) = 53 /\
    ((e = -34 /\ 8589934592000000 < Zpos m) \/
     (e = -33 /\ Zpos m < 8589934592000000)).
Proof.
  rewrite !FloatAxioms.ltb_spec, Prim2SF_half, Prim2SF_full.
  pose proof (Prim2SF_valid x) as Hv. revert Hv.
  unfold SFltb, sf_half, sf_full.
  destruct (Prim2SF x) as [s|s| |s m e]; try destruct s; cbn [SFcompare];
    try discriminate.
  cbn [valid_binary]. unfold bounded, canonical_mantissa.
  intros Hv Hlo Hhi. apply andb_prop in Hv as [Hc _].
  apply Z.eqb_eq in Hc.
  exists m, e. split; [reflexivity|].
  destruct (Z.compare_spec (-34) e) as [He|He|He]; try congruence;
    destruct (Z.compare_spec e (-33)) as [He'|He'|He']; try congruence;
    try lia; subst e.
  - split.
    + revert Hc. unfold fexp, SpecFloat.emin, prec, emax. lia.
    + left. split; [reflexivity|].
      destruct (Pos.compare_cont Eq 8589934592000000 m) eqn:Hm;
        try discriminate Hlo.
      apply compare_cont_lt in Hm. exact Hm.
  - split.
    + revert Hc. unfold fexp, SpecFloat.emin, prec, emax. lia.
    + right. split; [reflexivity|].
      destruct (Pos.compare_cont Eq m 8589934592000000) eqn:Hm;
        try discriminate Hhi.
      apply compare_cont_lt in Hm. exact Hm.
Qed.

Lemma SFsub_pos_finite (m1 m2 : positive) (e1 e2 : Z) :
  SFsub prec emax (S754_finite false m1 e1) (S754_finite false m2 e2)
  = binary_normalize prec emax
      (Zpos (fst (shl_align m1 e1 (Z.min e1 e2)))
       - Zpos (fst (shl_align m2 e2 (Z.min e1 e2))))
      (Z.min e1 e2) false.
Proof. reflexivity. Qed.

Lemma shl_align_same (m : positive) (e : Z) : shl_align m e e = (m, e).
Proof. unfold shl_align. rewrite Z.sub_diag. reflexivity. Qed.

Lemma shl_align_one (m : positive) (e : Z) :
  shl_align m e (e - 1) = (xO m, e - 1).
Proof.
  unfold shl_align. replace (e - 1 - e) with (-1) by lia. reflexivity.
Qed.

Lemma mantissa_53 (m : positive) :
  Zpos (digits2_pos m) = 53 ->
  4503599627370496 <= Zpos m < 9007199254740992.
Proof.
  intros Hd. pose proof (digits2_pos_bounds m) as H. rewrite Hd in H.
  exact H.
Qed.

(** The full span minus such a double is exact, positive and below half the
    span (Sterbenz). *)
Lemma sub_shape (x : float) :
  (500000.0 <? x)%float = true -> (x <? 1000000.0)%float = true ->
  exists m' e',
    Prim2SF (1000000.0 - x) = S754_finite false m' e' /\
    (e' < -34 \/ (e' = -34 /\ Zpos m' < 8589934592000000)).
Proof.
  intros Hlo Hhi.
  destruct (between_shape x Hlo Hhi) as (m & e & Hx & Hd & Hcase).
  pose proof (mantissa_53 m Hd) as Hm.
  rewrite FloatAxioms.sub_spec, Prim2SF_full, Hx. unfold SF64sub, sf_full.
  rewrite SFsub_pos_finite.
  destruct Hcase as [[-> Hgt]|[-> Hlt]].
  - change (Z.min (-33) (-34)) with (-33 - 1).
    rewrite shl_align_one, shl_align_same. cbn [fst].
    change (-33 - 1) with (-34).
    rewrite (Pos2Z.inj_xO 8589934592000000).
    destruct (2 * 8589934592000000 - Zpos m) as [|p|p] eqn:Hz; try lia.
    cbn [binary_normalize].
    destruct (binary_round_exact p (-34)) as (m' & e' & Hr & He' & Hm');
      try lia.
    exists m', e'. split; [exact Hr|].
    pose proof (digits2_pos_le p 53 ltac:(lia)) as Hle.
    change (2 ^ 53) with 9007199254740992 in Hle.
    destruct (Z.eq_dec (Zpos (digits2_pos p)) 53) as [E|E].
    + right. rewrite E in He', Hm'. change (2 ^ (53 - 53)) with 1 in Hm'. lia.
    + left. lia.
  - change (Z.min (-33) (-33)) with (-33).
    rewrite !shl_align_same. cbn [fst].
    destruct (8589934592000000 - Zpos m) as [|p|p] eqn:Hz; try lia.
    cbn [binary_normalize].
    destruct (binary_round_exact p (-33)) as (m' & e' & Hr & He' & Hm');
      try lia.
    exists m', e'. split; [exact Hr|].
    pose proof (digits2_pos_le p 52 ltac:(lia)) as Hle.
    change (2 ^ 52) with 4503599627370496 in Hle.
    destruct (Z.eq_dec (Zpos (digits2_pos p)) 52) as [E|E].
    + right. rewrite E in He', Hm'. change (2 ^ (53 - 52)) with 2 in Hm'. lia.
    + left. lia.
Qed.

(** *** Sign of a quotient of non-negative doubles *)

Lemma iter_pos_invariant {A : Type} (P : A -> Prop) (f : A -> A) :
  (forall a, P a -> P (f a)) ->
  forall (n : positive) (a : A), P a -> P (iter_pos f n a).
Proof.
  intros Hf. induction n as [n IH|n IH|]; intros a Ha; cbn [iter_pos]; auto.
Qed.

Lemma shr_1_nonneg (mrs : shr_record) :
  0 <= shr_m mrs -> 0 <= shr_m (shr_1 mrs).
Proof.
  destruct mrs as [m r s]. cbn [shr_m]. intros Hm.
  destruct m as [|[p|p|]|p]; cbn [shr_1 shr_m]; lia.
Qed.

Lemma shr_fexp_nonneg (m e : Z) (l : location) :
  0 <= m -> 0 <= shr_m (fst (shr_fexp prec emax m e l)).
Proof.
  intros Hm. unfold shr_fexp, shr.
  assert (H0 : 0 <= shr_m (shr_record_of_loc m l))
    by (destruct l as [|[ | | ]]; exact Hm).
  destruct (fexp prec emax (Zdigits2 m + e) - e) as [|p|p]; cbn [fst]; auto.
  apply (iter_pos_invariant (fun r => 0 <= shr_m r)); auto using shr_1_nonneg.
Qed.

Lemma round_nearest_even_nonneg (m : Z) (l : location) :
  0 <= m -> 0 <= round_nearest_even m l.
Proof.
  intros Hm. destruct l as [|[ | | ]]; cbn [round_nearest_even]; try lia.
  destruct (Z.even m); lia.
Qed.

Lemma binary_round_aux_nonneg (m e : Z) (l : location) :
  0 <= m -> SFnonneg (binary_round_aux prec emax false m e l).
Proof.
  intros Hm. unfold binary_round_aux.
  pose proof (shr_fexp_nonneg m e l Hm) as H1.
  destruct (shr_fexp prec emax m e l) as [mrs' e']. cbn [fst] in H1.
  pose proof (shr_fexp_nonneg
                (round_nearest_even (shr_m mrs') (loc_of_shr_record mrs'))
                e' loc_Exact
                (round_nearest_even_nonneg _ _ H1)) as H2.
  destruct (shr_fexp prec emax _ e' loc_Exact) as [mrs'' e'']. cbn [fst] in H2.
  destruct (shr_m mrs'') as [|p|p]; try lia; cbn [SFnonneg]; auto.
  destruct (e'' <=? emax - prec); exact I.
Qed.

Lemma of_uint63_nonneg (n : int) : SFnonneg (Prim2SF (of_uint63 n)).
Proof.
  rewrite FloatAxioms.of_uint63_spec.
  pose proof (Uint63.to_Z_bounded n) as [Hn _].
  destruct (to_Z n) as [|p|p]; try lia; cbn [binary_normalize]; [exact I|].
  unfold binary_round.
  destruct (shl_align p 0 (fexp prec emax (Z.pos (digits2_pos p) + 0)))
    as [mz ez].
  apply binary_round_aux_nonneg. lia.
Qed.

Lemma SFdiv_nonneg (x : spec_float) (my : positive) (ey : Z) :
  SFnonneg x -> SFnonneg (SFdiv prec emax x (S754_finite false my ey)).
Proof.
  destruct x as [[|]|[|]| |[|] mx ex]; cbn [SFnonneg]; try contradiction;
    intros _; cbn [SFdiv xorb SFnonneg]; try exact I.
  unfold SFdiv_core_binary.
  set (s := ex - ey - _).
  set (m' := match s with Z0 => Zpos mx | Zpos _ => Z.shiftl (Zpos mx) s
                     | Zneg _ => 0 end).
  assert (Hm' : 0 <= m').
  { subst m'. destruct s; try lia. apply Z.shiftl_nonneg. lia. }
  pose proof (Z.div_pos m' (Zpos my) Hm' ltac:(lia)) as Hq.
  unfold Z.div in Hq.
  destruct (Z.div_eucl m' (Zpos my)) as [q r]. cbn [fst] in Hq.
  apply binary_round_aux_nonneg. exact Hq.
Qed.

Lemma Prim2SF_600 : Prim2SF 600.0 = S754_finite false 5277655813324800 (-43).
Proof. vm_compute. reflexivity. Qed.

(** The microsecond value of a cycle difference is never negative and never
    a NaN. *)
Lemma dtus_nonneg (dt : Z) : SFnonneg (Prim2SF (of_uint32 dt / 600.0)).
Proof.
  rewrite FloatAxioms.div_spec, Prim2SF_600. unfold SF64div.
  apply SFdiv_nonneg, of_uint63_nonneg.
Qed.

(** * Drift classification *)

Lemma Prim2SF_neg_half :
  Prim2SF (-500000.0) = S754_finite true 8589934592000000 (-34).
Proof. vm_compute. reflexivity. Qed.

Section Drift.

Variable dt : Z.

Let dtus : float := (of_uint32 dt / 600.0)%float.

Lemma drift_report_minus :
  (500000.0 <? dtus)%float = true -> (dtus <? 1000000.0)%float = true ->
  drift_report dt = (true, (1000000.0 - dtus)%float).
Proof.
  intros Hlo Hhi. unfold drift_report. fold dtus. rewrite Hlo, Hhi.
  reflexivity.
Qed.

Lemma drift_report_clamp :
  (1000000.0 <? dtus)%float = true -> drift_report dt = (false, 0.0%float).
Proof.
  intros Hc. unfold drift_report. fold dtus.
  rewrite (ltb_asym _ _ Hc), andb_false_r, Hc. reflexivity.
Qed.

Lemma drift_report_keep :
  ((500000.0 <? dtus)%float && (dtus <? 1000000.0)%float) = false ->
  (1000000.0 <? dtus)%float = false ->
  drift_report dt = (false, dtus).
Proof.
  intros Hb Hc. unfold drift_report. fold dtus. rewrite Hb, Hc.
  reflexivity.
Qed.

(** A value printed under the minus sign stands for a drift strictly
    above -500,000 (and trivially below the full span). *)
Lemma minus_branch_range :
  (500000.0 <? dtus)%float = true -> (dtus <? 1000000.0)%float = true ->
  (-500000.0 <? - (1000000.0 - dtus))%float = true /\
  (- (1000000.0 - dtus) <=? 1000000.0)%float = true.
Proof.
  intros Hlo Hhi.
  destruct (sub_shape dtus Hlo Hhi) as (m' & e' & Hr & Hcase).
  rewrite FloatAxioms.ltb_spec, FloatAxioms.leb_spec, FloatAxioms.opp_spec,
    Hr, Prim2SF_neg_half, Prim2SF_full.
  unfold SFltb, SFleb, sf_full. cbn [SFopp negb SFcompare].
  split; [|reflexivity].
  destruct Hcase as [He|[-> Hm]].
  - destruct (Z.compare_spec (-34) e'); try lia; reflexivity.
  - change (-34 ?= -34) with Eq.
    rewrite (gt_compare_cont _ _ Hm). reflexivity.
Qed.

(** A value printed without the minus sign and not clamped is between zero
    and the full span, both included. *)
Lemma keep_branch_range :
  (1000000.0 <? dtus)%float = false ->
  (-500000.0 <? dtus)%float = true /\ (dtus <=? 1000000.0)%float = true.
Proof.
  pose proof (dtus_nonneg dt) as Hnn. fold dtus in Hnn. revert Hnn.
  rewrite !FloatAxioms.ltb_spec, FloatAxioms.leb_spec, Prim2SF_neg_half,
    Prim2SF_full.
  unfold SFltb, SFleb.
  rewrite (SFcompare_antisym (Prim2SF dtus) sf_full). unfold sf_full.
  destruct (Prim2SF dtus) as [[|]|[|]| |[|] m e]; cbn [SFnonneg];
    try contradiction; intros _; cbn [SFcompare option_map CompOpp];
    try (intros; split; reflexivity); try discriminate.
  destruct (e ?= -33); [destruct (Pos.compare_cont Eq m 8589934592000000)| |];
    cbn [CompOpp]; intros; try discriminate; split; reflexivity.
Qed.

Lemma drift_in_range :
  (-500000.0 <? reported_drift dt)%float = true /\
  (reported_drift dt <=? 1000000.0)%float = true.
Proof.
  unfold reported_drift.
  destruct ((500000.0 <? dtus)%float && (dtus <? 1000000.0)%float) eqn:Hb.
  - apply andb_prop in Hb as [Hlo Hhi].
    rewrite (drift_report_minus Hlo Hhi). cbn [fst snd signed_us].
    exact (minus_branch_range Hlo Hhi).
  - destruct (1000000.0 <? dtus)%float eqn:Hc.
    + rewrite (drift_report_clamp Hc). cbn [fst snd signed_us].
      split; vm_compute; reflexivity.
    + rewrite (drift_report_keep Hb Hc). cbn [fst snd signed_us].
      exact (keep_branch_range Hc).
Qed.

End Drift.

(** ** The printed drift *)

Lemma valid_mantissa_lt (x : float) (s : bool) (m : positive) (e : Z) :
  Prim2SF x = S754_finite s m e -> Zpos m < 9007199254740992.
Proof.
  intros Hx. pose proof (Prim2SF_valid x) as Hv. rewrite Hx in Hv.
  cbn [valid_binary] in Hv. unfold bounded, canonical_mantissa in Hv.
  apply andb_prop in Hv as [Hc _]. apply Z.eqb_eq in Hc.
  assert (Hd : Zpos (digits2_pos m) <= 53).
  { revert Hc. unfold fexp, SpecFloat.emin, prec, emax. lia. }
  pose proof (digits2_pos_bounds m) as [_ Hhi].
  assert (2 ^ Zpos (digits2_pos m) <= 2 ^ 53)
    by (apply Z.pow_le_mono_r; lia).
  change (2 ^ 53) with 9007199254740992 in *. lia.
Qed.

Lemma round_half_even_bounds (n d b : Z) :
  0 <= n -> 0 < d -> n <= b * d -> 0 <= round_half_even n d <= b.
Proof.
  intros Hn Hd Hb. unfold round_half_even.
  pose proof (Z.div_mod n d ltac:(lia)) as Hdm.
  pose proof (Z.mod_pos_bound n d Hd) as Hr.
  assert (Hq : 0 <= n / d) by (apply Z.div_pos; lia).
  assert (Hle : n / d <= b) by nia.
  assert (Hlt : n / d < b \/ (n / d = b /\ n mod d = 0)) by nia.
  destruct (Z.compare_spec (2 * (n mod d)) d); [destruct (Z.even (n / d))| |];
    lia.
Qed.

(** A non-negative finite double of value at most [b] prints, to one decimal,
    at most [b]. *)
Lemma scaled_one_le (x : float) (m : positive) (e b : Z) :
  Prim2SF x = S754_finite false m e -> e < 0 -> Zpos m <= b * 2 ^ (- e) ->
  exists q, scaled 1 x = Some (false, q) /\ 0 <= q <= 10 * b.
Proof.
  intros Hx He Hb. unfold scaled. rewrite Hx.
  replace (0 <=? e) with false by (symmetry; apply Z.leb_gt; exact He).
  eexists. split; [reflexivity|].
  change (10 ^ 1) with 10.
  assert (Hp : 0 < 2 ^ (- e)) by (apply Z.pow_pos_nonneg; lia).
  apply round_half_even_bounds; nia.
Qed.

Lemma drift_field_text (seq : Z) (minus : bool) (us iv tcxo : float) (q : Z) :
  scaled 1 us = Some (false, q) ->
  drift_field (Drift seq minus us iv tcxo)
  = Some ((if minus then "-" else "")
            ++ decimal (q / 10) ++ "." ++ decimal (q mod 10))%string.
Proof.
  intros Hq. unfold drift_field, fixed_text.
  change (Z.of_nat 1) with 1. rewrite Hq.
  change (10 ^ 1) with 10. cbn [option_map fraction].
  rewrite Z.mod_mod by lia. reflexivity.
Qed.

Section PrintedDrift.

Variable dt : Z.

Let dtus : float := (of_uint32 dt / 600.0)%float.

Lemma minus_branch_printed :
  (500000.0 <? dtus)%float = true -> (dtus <? 1000000.0)%float = true ->
  exists q, scaled 1 (1000000.0 - dtus) = Some (false, q) /\ 0 <= q <= 5000000.
Proof.
  intros Hlo Hhi.
  destruct (sub_shape dtus Hlo Hhi) as (m' & e' & Hr & Hcase).
  pose proof (valid_mantissa_lt _ _ _ _ Hr) as Hm.
  apply (scaled_one_le _ m' e' 500000 Hr); [lia|].
  destruct Hcase as [He|[-> Hlt]].
  - assert (2 ^ 35 <= 2 ^ (- e')) by (apply Z.pow_le_mono_r; lia).
    change (2 ^ 35) with 34359738368 in *. lia.
  - change (2 ^ (- -34)) with 17179869184. lia.
Qed.

Lemma keep_branch_printed :
  (1000000.0 <? dtus)%float = false ->
  exists q, scaled 1 dtus = Some (false, q) /\ 0 <= q <= 10000000.
Proof.
  pose proof (dtus_nonneg dt) as Hnn. fold dtus in Hnn.
  rewrite FloatAxioms.ltb_spec, Prim2SF_full. unfold SFltb, sf_full.
  destruct (Prim2SF dtus) as [[|]|[|]| |[|] m e] eqn:Hx; cbn [SFnonneg] in Hnn;
    try contradiction; cbn [SFcompare]; try discriminate.
  - intros _. exists 0. unfold scaled. rewrite Hx. split; [reflexivity|lia].
  - pose proof (valid_mantissa_lt _ _ _ _ Hx) as Hm.
    destruct (Z.compare_spec (-33) e) as [<-|Hlt|Hgt]; try discriminate.
    + intros Hc. apply (scaled_one_le _ m (-33) 1000000 Hx); [lia|].
      change (2 ^ (- -33)) with 8589934592.
      destruct (Pos.compare_cont Eq 8589934592000000 m) eqn:Hcmp;
        try discriminate Hc.
      * apply Pos.compare_eq in Hcmp. subst m. lia.
      * apply compare_cont_gt in Hcmp. lia.
    + intros _. apply (scaled_one_le _ m e 1000000 Hx); [lia|].
      assert (2 ^ 34 <= 2 ^ (- e)) by (apply Z.pow_le_mono_r; lia).
      change (2 ^ 34) with 17179869184 in *. lia.
Qed.

Lemma drift_printed :
  exists q,
    scaled 1 (snd (drift_report dt)) = Some (false, q) /\
    0 <= q <= (if fst (drift_report dt) then 5000000 else 10000000).
Proof.
  destruct ((500000.0 <? dtus)%float && (dtus <? 1000000.0)%float) eqn:Hb.
  - apply andb_prop in Hb as [Hlo Hhi].
    rewrite (drift_report_minus dt Hlo Hhi). cbn [fst snd].
    exact (minus_branch_printed Hlo Hhi).
  - destruct (1000000.0 <? dtus)%float eqn:Hc.
    + rewrite (drift_report_clamp dt Hc). cbn [fst snd].
      exists 0. split; [vm_compute; reflexivity|lia].
    + rewrite (drift_report_keep dt Hb Hc). cbn [fst snd].
      exact (keep_branch_printed Hc).
Qed.

End PrintedDrift.

(** * Runs of the machine *)

#[local] Arguments wrap32 : simpl never.
#[local] Arguments sub32 : simpl never.
#[local] Arguments add32 : simpl never.
#[local] Arguments tally : simpl never.
#[local] Arguments of_uint32 : simpl never.
#[local] Arguments drift_report : simpl never.

Lemma run_app (tr1 tr2 : list event) (m : machine) :
  run m (tr1 ++ tr2)
  = match run m tr1 with Some m' => run m' tr2 | None => None end.
Proof.
  revert m. induction tr1 as [|e tr1 IH]; intros m; cbn [run app].
  - reflexivity.
  - destruct (step m e); auto.
Qed.

(** An invariant of [step] holds along every run. *)
Lemma run_invariant (P : machine -> Prop) :
  (forall m e m', step m e = Some m' -> P m -> P m') ->
  forall tr m m', run m tr = Some m' -> P m -> P m'.
Proof.
  intros Hstep. induction tr as [|e tr IH]; intros m m' Hrun Hm;
    cbn [run] in Hrun.
  - injection Hrun as <-. exact Hm.
  - destruct (step m e) as [m1|] eqn:He; [|discriminate].
    eauto.
Qed.

(** Case analysis on one step: the event, and for [Main] the statement. *)
Ltac step_cases m e H :=
  destruct m as [[ivc ppc ptc] [lic lpc lptc tm ftc ftf iv cr icnt]
                   [ic0 dt0 pc0 tc0] [calls fb fr ser] at0 irq0 inpps0];
  destruct e as [c|cn ho|c|n|]; cbn [step irq in_pps hw freq_begun] in H;
  [ destruct (irq0 && negb inpps0) eqn:Hen; [|discriminate H]
  | destruct inpps0 eqn:Hen; [|discriminate H]
  | destruct (irq0 && timer_running _) eqn:Hen; [|discriminate H]
  | destruct (irq0 && fb) eqn:Hen; [|discriminate H]
  | destruct inpps0 eqn:Hen; [discriminate H|] ];
  injection H as <-.

(** ** Before and after calibration *)

Lemma tracking_inv_init : tracking_inv init.
Proof.
  split; [|constructor]. cbn. unfold before_calibration. cbn.
  repeat split; lia.
Qed.

Lemma tracking_inv_step (m : machine) (e : event) (m' : machine) :
  step m e = Some m' -> tracking_inv m -> tracking_inv m'.
Proof.
  intros H. step_cases m e H.
  - (* PpsEnter *)
    unfold tracking_inv, before_calibration, after_calibration. cbn. auto.
  - unfold tracking_inv, before_calibration, after_calibration. cbn. auto.
  - (* TimerFire: the timer has been started *)
    apply andb_prop in Hen as [_ Hrun]. unfold timer_running in Hrun.
    cbn in Hrun.
    unfold tracking_inv, before_calibration, after_calibration. cbn.
    destruct ftf; [|auto].
    intros [(_ & _ & _ & _ & Hc & _) _]. subst calls. discriminate Hrun.
  - unfold tracking_inv, before_calibration, after_calibration. cbn. auto.
  - (* Main *)
    unfold tracking_inv, before_calibration, after_calibration, loop.
    destruct at0; cbn; auto.
    + (* line 114 *)
      destruct ftf; [|auto]. intros [(Hi & H) Hs]. repeat split; tauto.
    + (* lines 118-147 *)
      unfold interval_block. cbn.
      destruct (ic0 =? lic) eqn:Hic; cbn; [auto|].
      destruct ftf.
      * intros [(_ & Hi & Hl & _) _]. apply Z.eqb_neq in Hic. lia.
      * intros [(Hn & p & rest & -> & Hr) Hs]. split.
        -- split; [exact Hn|]. exists p, (rest ++ [Update (cr * tm - 0.005)]).
           split; [reflexivity|]. rewrite existsb_app, Hr. reflexivity.
        -- apply Forall_app. split; [exact Hs|]. repeat constructor.
           exists dt0. symmetry. apply surjective_pairing.
    + (* lines 149-157 *)
      unfold freq_block. cbn. destruct fr; cbn; auto.
    + (* lines 164-207 *)
      unfold pps_block. cbn.
      destruct (pc0 =? lpc); cbn; [auto|].
      destruct (ftc <? 10) eqn:Hlt; [destruct (ftc =? 0)|destruct ftf]; cbn.
      * apply Z.ltb_lt in Hlt. destruct ftf.
        -- intros [(H1 & H2 & H3 & H4 & H5 & H6 & H7) Hs]. split.
           ++ rewrite filter_app, H6. repeat split; auto; lia.
           ++ apply Forall_app. split; [exact Hs|]. repeat constructor.
        -- intros [(Hn & _) _]. lia.
      * apply Z.ltb_lt in Hlt. destruct ftf.
        -- intros [(H1 & H2 & H3 & H4 & H5 & H6 & H7) Hs]. split.
           ++ rewrite filter_app, H6. repeat split; auto; lia.
           ++ apply Forall_app. split; [exact Hs|]. repeat constructor.
        -- intros [(Hn & _) _]. lia.
      * apply Z.ltb_ge in Hlt.
        intros [(H1 & H2 & H3 & H4 & H5 & H6 & H7) Hs]. split.
        -- split; [lia|]. rewrite H5. cbn. eauto.
        -- apply Forall_app. split; [exact Hs|]. repeat constructor.
      * auto.
Qed.

Lemma tracking_inv_run (tr : list event) (m : machine) :
  run init tr = Some m -> tracking_inv m.
Proof.
  intros H. exact (run_invariant _ tracking_inv_step tr init m H
                                 tracking_inv_init).
Qed.

(** ** Counting observations, calibrations and edges *)

Lemma counting_inv_init : counting_inv 0 0 0 0 init.
Proof. unfold counting_inv. cbn. repeat split; lia. Qed.

Lemma counting_inv_step (m : machine) (e : event) (m' : machine)
      (obs cal edg gat : nat) :
  step m e = Some m' -> counting_inv obs cal edg gat m ->
  counting_inv (obs + Nat.b2n (observes_pps m e))
               (cal + Nat.b2n (calibrates m e))
               (edg + Nat.b2n (is_edge e))
               (gat + Nat.b2n (is_gate e)) m'.
Proof.
  intros H. step_cases m e H; unfold counting_inv, calibrates, pending_pps.
  - (* PpsEnter *)
    cbn. rewrite !Nat.add_0_r. intros (Hp & H2 & H3 & H4 & H5).
    repeat split; try tauto.
    destruct at0;
      repeat match goal with
             | |- context [?a =? ?b] => destruct (Z.eqb_spec a b)
             | H : context [?a =? ?b] |- _ => destruct (Z.eqb_spec a b)
             end; lia.
  - cbn. rewrite !Nat.add_0_r. destruct at0; auto.
  - cbn. rewrite !Nat.add_0_r. destruct at0; auto.
  - (* GateDone *)
    cbn. rewrite !Nat.add_0_r. intros (Hp & H2 & H3 & H4 & H5).
    repeat split; try tauto; try (destruct at0; exact Hp); lia.
  - (* Main *)
    unfold loop. destruct at0; cbn; rewrite ?Nat.add_0_r; auto.
    + (* line 118 *)
      unfold interval_block. cbn. destruct (ic0 =? lic); cbn; auto.
    + (* line 149 *)
      unfold freq_block. cbn. intros (Hp & H2 & H3 & H4 & H5).
      destruct fr; cbn; [|tauto].
      repeat split; try tauto;
        match goal with
        | Hg : gat = 0%nat |- _ => destruct (H5 Hg); discriminate
        end.
    + (* line 160 *)
      intros (Hp & H). split; [|exact H].
      rewrite Z.eqb_refl. destruct (ppc =? lpc); exact Hp.
    + (* line 164 *)
      unfold pps_block. cbn.
      destruct (Z.eqb_spec pc0 lpc) as [->|Hne]; cbn;
        rewrite ?Nat.add_0_r; [auto|].
      intros (Hp & H2 & H3 & H4 & H5).
      assert (Hp' : (obs + 1 + (if (ppc =? pc0)%Z then 0 else 1) <= edg)%nat)
        by (destruct (ppc =? pc0); lia).
      destruct (Z.ltb_spec ftc 10) as [Hlt|Hge]; cbn.
      * assert (Ho : (obs < 10)%nat) by lia.
        replace (obs + 1 <=? 10)%nat with true
          by (symmetry; apply Nat.leb_le; lia).
        replace (obs <=? 10)%nat with true in *
          by (symmetry; apply Nat.leb_le; lia).
        destruct (ftc =? 0); cbn; subst ftf; cbn; rewrite ?Nat.add_0_r;
          repeat split; try tauto; lia.
      * assert (Ho : (10 <= obs)%nat) by lia.
        replace (obs + 1 <=? 10)%nat with false
          by (symmetry; apply Nat.leb_gt; lia).
        subst ftf. destruct (Nat.leb_spec obs 10); cbn;
          repeat split; try tauto; lia.
Qed.

Lemma counting_inv_run (tr : list event) :
  forall (m m' : machine) (obs cal edg gat : nat),
    run m tr = Some m' -> counting_inv obs cal edg gat m ->
    counting_inv (obs + count_steps observes_pps m tr)
                 (cal + count_steps calibrates m tr)
                 (edg + edges tr) (gat + gates tr) m'.
Proof.
  induction tr as [|e tr IH]; intros m m' obs cal edg gat Hrun Hinv;
    cbn [run count_steps] in *.
  - injection Hrun as <-. unfold edges, gates. cbn.
    rewrite !Nat.add_0_r. exact Hinv.
  - destruct (step m e) as [m1|] eqn:He; [|discriminate].
    pose proof (IH _ _ _ _ _ _ Hrun (counting_inv_step _ _ _ _ _ _ _ He Hinv))
      as H.
    unfold edges, gates in *. cbn [filter].
    destruct (is_edge e), (is_gate e), (observes_pps m e), (calibrates m e);
      cbn [Nat.b2n length] in *;
      repeat rewrite ?Nat.add_0_r, <- ?Nat.add_assoc, ?Nat.add_succ_r in *;
      cbn [Nat.add] in *; exact H.
Qed.

(** ** The hand-off of a capture to [loop] *)

Lemma captures_from_cons (pending : option Z) (e : event) (tr : list event) :
  captures_from pending (e :: tr)
  = fst (capture_step pending e)
      ++ captures_from (snd (capture_step pending e)) tr.
Proof. destruct e, pending; reflexivity. Qed.

Lemma last_in_cons {A : Type} (l : list A) (d : A) : In (last l d) (d :: l).
Proof.
  induction l as [|a l IH]; [left; reflexivity|].
  destruct l as [|b l]; [right; left; reflexivity|].
  change (last (a :: b :: l) d) with (last (b :: l) d).
  destruct IH as [IH|IH]; [left; exact IH|right; right; exact IH].
Qed.

Lemma handoff_inv_init : handoff_inv [] None init.
Proof. unfold handoff_inv. cbn. auto. Qed.

Lemma handoff_inv_step (m : machine) (e : event) (m' : machine)
      (caps : list (Z * Z)) (pending : option Z) :
  step m e = Some m' -> handoff_inv caps pending m ->
  handoff_inv (caps ++ fst (capture_step pending e))
              (snd (capture_step pending e)) m'.
Proof.
  intros H. step_cases m e H; unfold handoff_inv; cbn;
    rewrite ?app_nil_r.
  - (* PpsEnter: interrupts are enabled, so [loop] is outside lines 160-162 *)
    apply andb_prop in Hen as [-> _].
    intros (_ & _ & _ & Hat). repeat split; try discriminate.
    destruct at0; try exact Hat; try exact I; destruct Hat; discriminate.
  - (* PpsLatch *)
    intros (-> & _ & Hirq & Hat). cbn. rewrite last_last.
    repeat split; auto.
    destruct at0; try exact I.
    + specialize (Hirq Hat). discriminate.
    + destruct Hat as [Hf _]. specialize (Hirq Hf). discriminate.
    + destruct Hat as [Hf _]. specialize (Hirq Hf). discriminate.
    + destruct Hat as [Hat|Hat]; [left; exact Hat|].
      right. apply in_or_app. left. exact Hat.
  - intros (Hp & Hl & Hi & Hat). repeat split; auto.
  - intros (Hp & Hl & Hi & Hat). repeat split; auto.
  - (* Main *)
    intros (Hp & Hl & Hi & Hat). specialize (Hl eq_refl).
    unfold loop. destruct at0; cbn; repeat split; auto; try tauto.
    + destruct Hat as [_ ->]. reflexivity.
    + destruct Hat as [_ Hpair].
      pose proof (last_in_cons caps (0, 0)) as Hin.
      rewrite <- Hl, <- Hpair in Hin. exact Hin.
Qed.

Lemma handoff_inv_run (tr : list event) :
  forall (m m' : machine) (caps : list (Z * Z)) (pending : option Z),
    run m tr = Some m' -> handoff_inv caps pending m ->
    exists pending',
      handoff_inv (caps ++ captures_from pending tr) pending' m'.
Proof.
  induction tr as [|e tr IH]; intros m m' caps pending Hrun Hinv;
    cbn [run] in Hrun.
  - injection Hrun as <-. exists pending. cbn. rewrite app_nil_r. exact Hinv.
  - destruct (step m e) as [m1|] eqn:He; [|discriminate].
    destruct (IH _ _ _ _ Hrun (handoff_inv_step _ _ _ _ _ He Hinv))
      as [pending' H].
    exists pending'. rewrite captures_from_cons, app_assoc. exact H.
Qed.

(** ** The calls a step makes to the timer *)

Lemma timer_calls_step (m : machine) (e : event) (m' : machine) :
  step m e = Some m' ->
  timer_calls (hw m') = timer_calls (hw m) ++ new_timer_calls m e.
Proof.
  intros H. unfold new_timer_calls, calibrates.
  step_cases m e H; cbn; rewrite ?app_nil_r; try reflexivity.
  unfold loop. destruct at0; cbn; rewrite ?app_nil_r; try reflexivity.
  - unfold interval_block. cbn. destruct (ic0 =? lic); cbn;
      rewrite ?app_nil_r; reflexivity.
  - unfold freq_block. cbn. destruct fr; cbn; rewrite ?app_nil_r; reflexivity.
  - unfold pps_block. cbn.
    destruct (pc0 =? lpc), (ftc <? 10), (ftc =? 0), ftf; cbn;
      rewrite ?app_nil_r; reflexivity.
Qed.

Lemma calibrates_step (m : machine) (e : event) (m' : machine) :
  step m e = Some m' -> calibrates m e = true ->
  countRatio (st m')
  = (of_uint32 (sub32 (pc (lo m)) (lastPpsCycles (st m))) / 600.0
     / tcxoMicros (st m))%float /\
  tcxoMicros (st m') = tcxoMicros (st m) /\
  firstTimeFlag (st m') = false.
Proof.
  intros H. unfold calibrates.
  step_cases m e H; cbn; try discriminate.
  unfold loop. destruct at0; cbn; try discriminate.
  unfold pps_block. cbn.
  destruct (pc0 =? lpc), (ftc <? 10), (ftc =? 0), ftf; cbn;
    try discriminate; auto.
Qed.

Lemma tracking_inv_phase (m : machine) (e : event) :
  tracking_inv m ->
  if firstTimeFlag (st m)
  then timer_calls (hw m) = [] /\ observes_interval m e = false
  else timer_calls (hw m) <> [] /\ calibrates m e = false.
Proof.
  intros [Hphase _]. destruct (firstTimeFlag (st m)) eqn:Hf.
  - destruct Hphase as (_ & Hic & Hl & _ & Hc & _). split; [exact Hc|].
    unfold observes_interval. destruct e, (at_line m); try reflexivity.
    rewrite Hic, Hl. reflexivity.
  - destruct Hphase as (_ & p & rest & -> & _). split; [discriminate|].
    unfold calibrates. rewrite Hf. apply andb_false_r.
Qed.

(** ** The assignments to [countRatio] *)

(** A step other than the calibration leaves [countRatio] and
    [firstTimeFlag] as they are. *)
Lemma ratio_step (m : machine) (e : event) (m' : machine) :
  step m e = Some m' -> calibrates m e = false ->
  countRatio (st m') = countRatio (st m) /\
  firstTimeFlag (st m') = firstTimeFlag (st m).
Proof.
  intros H. unfold calibrates.
  step_cases m e H; cbn; auto.
  unfold loop. destruct at0; cbn; auto.
  - unfold interval_block. cbn. destruct (ic0 =? lic); cbn; auto.
  - unfold freq_block. cbn. destruct fr; cbn; auto.
  - unfold pps_block. cbn.
    destruct (pc0 =? lpc), (ftc <? 10), (ftc =? 0), ftf; cbn; auto;
      discriminate.
Qed.

(** Until calibration [countRatio] holds its initial value. *)
Lemma ratio_initial_run (tr : list event) (m : machine) :
  run init tr = Some m -> firstTimeFlag (st m) = true ->
  countRatio (st m) = 1000000000000.0%float.
Proof.
  intros H.
  refine (run_invariant
            (fun m => firstTimeFlag (st m) = true ->
                      countRatio (st m) = 1000000000000.0%float)
            _ tr init m H (fun _ => eq_refl)).
  clear. intros m e m' Hs Hm Hf.
  destruct (calibrates m e) eqn:Hc.
  - destruct (calibrates_step m e m' Hs Hc) as (_ & _ & Hf').
    rewrite Hf' in Hf. discriminate.
  - destruct (ratio_step m e m' Hs Hc) as [Hr Hf']. rewrite Hr.
    apply Hm. rewrite <- Hf'. exact Hf.
Qed.

Lemma run_snoc (tr : list event) (e : event) (m m' : machine) :
  run m (tr ++ [e]) = Some m' ->
  exists m0, run m tr = Some m0 /\ step m0 e = Some m'.
Proof.
  rewrite run_app. destruct (run m tr) as [m0|]; [|discriminate].
  cbn [run]. destruct (step m0 e) as [m1|] eqn:He; [|discriminate].
  intros H. exists m0. split; [reflexivity|]. congruence.
Qed.

Lemma calibrates_main (m : machine) (e : event) :
  calibrates m e = true -> e = Main.
Proof. unfold calibrates, observes_pps. destruct e; try discriminate. auto. Qed.

(** After calibration [countRatio] is the quotient computed by the one
    calibrating step of the run. *)
Lemma ratio_history (tr : list event) :
  forall m : machine,
    run init tr = Some m -> firstTimeFlag (st m) = false ->
    exists tr1 tr2 m1,
      tr = tr1 ++ Main :: tr2 /\ run init tr1 = Some m1 /\
      calibrates m1 Main = true /\
      countRatio (st m)
      = (of_uint32 (sub32 (pc (lo m1)) (lastPpsCycles (st m1))) / 600.0
         / tcxoMicros (st m1))%float.
Proof.
  induction tr as [|e tr IH] using rev_ind; intros m Hrun Hf.
  - injection Hrun as <-. discriminate Hf.
  - destruct (run_snoc tr e init m Hrun) as (m0 & Hr0 & Hs).
    destruct (calibrates m0 e) eqn:Hc.
    + pose proof (calibrates_main m0 e Hc) as ->.
      destruct (calibrates_step m0 Main m Hs Hc) as (Hr & _ & _).
      exists tr, [], m0. auto.
    + destruct (ratio_step m0 e m Hs Hc) as [Hr Hf'].
      rewrite Hf' in Hf.
      destruct (IH m0 Hr0 Hf) as (tr1 & tr2 & m1 & -> & H1 & H2 & H3).
      exists tr1, (tr2 ++ [e]), m1. rewrite <- app_assoc. cbn [app].
      rewrite Hr. auto.
Qed.

(** ** Keeping pace with the timer *)










(** * The claims *)

(** ** Drift reporting *)

(** C2. For every cycle difference [dt], with [dtus = dt / 600.0]: above
    half the span and below the full span the reported drift is
    [-(1000000 - dtus)]; beyond the full span it is [0]; at or below half the
    span it is [dtus] unchanged. *)
Theorem drift_sign_convention (dt : Z) :
  let dtus := (of_uint32 dt / 600.0)%float in
  ((500000.0 <? dtus)%float = true -> (dtus <? 1000000.0)%float = true ->
   reported_drift dt = (- (1000000.0 - dtus))%float) /\
  ((1000000.0 <? dtus)%float = true -> reported_drift dt = 0.0%float) /\
  ((dtus <=? 500000.0)%float = true -> reported_drift dt = dtus).
Proof.
  intros dtus. unfold reported_drift. repeat split.
  - intros Hlo Hhi. rewrite (drift_report_minus dt Hlo Hhi). reflexivity.
  - intros Hc. rewrite (drift_report_clamp dt Hc). reflexivity.
  - intros Hle. destruct (leb_half_not_above dtus Hle) as [Hlo Hc].
    rewrite (drift_report_keep dt); [reflexivity| |exact Hc].
    fold dtus. rewrite Hlo. reflexivity.
Qed.

(** The record [loop] writes at lines 138 and 145 carries the classification
    of the [dt] copied at line 115. *)
Lemma interval_block_emits (l : locals) (s : statics) (h : periph) :
  ic l <> lastIntervalCycles s ->
  exists seq iv,
    serial (snd (interval_block l s h))
    = serial h ++ [Drift seq (fst (drift_report (dt l)))
                         (snd (drift_report (dt l))) iv (tcxoMicros s)].
Proof.
  intros Hne. unfold interval_block.
  destruct (Z.eqb_spec (ic l) (lastIntervalCycles s)) as [Heq|_];
    [contradiction|].
  cbn [snd serial]. eauto.
Qed.

(** The three cases of C2 at 599,999,999, 600,000,001 and 300,000,000
    cycles. *)
Example drift_sign_convention_cases :
  reported_drift 599999999 = (- (1000000.0 - of_uint32 599999999 / 600.0))%float
  /\ reported_drift 600000001 = 0.0%float
  /\ reported_drift 300000000 = 500000.0%float.
Proof. repeat split; vm_compute; reflexivity. Qed.

(** C7. The code misses the boundary.  A cycle difference of exactly
    600,000,000 is a drift sample of exactly 1,000,000.0 us, which is at the
    full span; it passes both strict tests of lines 136 and 142 and is
    reported as 1,000,000.0, not as zero.  The program does emit such a
    record when the timer fires exactly one second after the last edge, and
    the record reads 1000000.0, whereas one cycle less reads -0.0 and one
    cycle more reads 0.0. *)
Theorem full_span_not_clamped :
  (of_uint32 600000000 / 600.0 =? 1000000.0)%float = true /\
  reported_drift 600000000 = 1000000.0%float /\
  (reported_drift 600000000 =? 0.0)%float = false /\
  filter is_drift (serial (hw (final ideal_full_span)))
  = [Drift 1 false 1000000.0 999999.995 1000000.0] /\
  map drift_field (filter is_drift (serial (hw (final ideal_full_span))))
  = [Some "1000000.0"%string] /\
  map drift_field
      (filter is_drift (serial (hw (final (fired_after 600000000)))))
  = [Some "1000000.0"%string] /\
  map drift_field
      (filter is_drift (serial (hw (final (fired_after 599999999)))))
  = [Some "-0.0"%string] /\
  map drift_field
      (filter is_drift (serial (hw (final (fired_after 600000001)))))
  = [Some "0.0"%string].
Proof.
  repeat match goal with |- _ /\ _ => split end; vm_compute; reflexivity.
Qed.

(** Strictly beyond the full span the clamp applies; a sample exactly equal
    to 1,000,000.0 passes it unchanged. *)
Lemma clamp_beyond_full_span (dt : Z) :
  let dtus := (of_uint32 dt / 600.0)%float in
  ((1000000.0 <? dtus)%float = true -> reported_drift dt = 0.0%float) /\
  ((dtus =? 1000000.0)%float = true -> reported_drift dt = dtus).
Proof.
  intros dtus. unfold reported_drift. split.
  - intros Hc. rewrite (drift_report_clamp dt Hc). reflexivity.
  - intros He. destruct (eqb_not_ltb _ _ He) as [Hlt Hgt].
    rewrite (drift_report_keep dt); [reflexivity| |exact Hgt].
    fold dtus. rewrite Hlt. apply andb_false_r.
Qed.

(** ** Oscillator measurement *)

(** C5. Whenever [loop] finds a completed window with count [n] at line 149,
    [tcxoMicros] becomes exactly [10000000.0 / n * 1000000.0] and the count
    is consumed; no other step changes [tcxoMicros].  A count of 10,000,050
    yields a value that prints as 999,995.0. *)
Theorem tcxo_from_completed_window (m : machine) (e : event) (m' : machine) :
  step m e = Some m' ->
  match e, at_line m, freq_ready (hw m) with
  | Main, L149, Some n =>
    tcxoMicros (st m') = (10000000.0 / of_uint32 n * 1000000.0)%float /\
    freq_ready (hw m') = None
  | _, _, _ => tcxoMicros (st m') = tcxoMicros (st m)
  end /\
  approx (10000000.0 / of_uint32 10000050 * 1000000.0) 999995.0 = true.
Proof.
  intros H. split; [|vm_compute; reflexivity].
  step_cases m e H; cbn; try reflexivity.
  unfold loop. destruct at0; cbn; try reflexivity.
  - unfold interval_block. cbn. destruct (ic0 =? lic); reflexivity.
  - unfold freq_block. cbn. destruct fr; cbn; auto.
  - unfold pps_block. cbn.
    destruct (pc0 =? lpc), (ftc <? 10), (ftc =? 0), ftf; reflexivity.
Qed.

(** The window of 10,000,050 pulses. *)
Lemma tcxo_from_completed_window_witness :
  step fast_window Main = Some (loop fast_window) /\
  tcxoMicros (st (loop fast_window))
  = (10000000.0 / of_uint32 10000050 * 1000000.0)%float /\
  approx (tcxoMicros (st (loop fast_window))) 999995.0 = true.
Proof.
  pose proof (tcxo_from_completed_window fast_window Main (loop fast_window)
                                         eq_refl) as [[Ht _] Ha].
  split; [reflexivity|]. split; [exact Ht|]. vm_compute. reflexivity.
Defined.

(** C10, as stated, fails: when the timer fires 300,000,001 cycles after the
    reference edge, the value handed to ["-%.1f"] is 499,999.99833..., below
    half the span, but it is written with one decimal, and the record shows
    -500000.0, which is not strictly above -500,000. *)
Lemma half_span_printed :
  drift_report 300000001 = (true, 499999.99833333335%float) /\
  filter is_drift (serial (hw (final (fired_after 300000001))))
  = [Drift 1 true 499999.99833333335 999999.995 1000000.0] /\
  map drift_field
      (filter is_drift (serial (hw (final (fired_after 300000001)))))
  = [Some "-500000.0"%string].
Proof. repeat split; vm_compute; reflexivity. Qed.

(** C10, amended. Every drift value the program emits lies in the closed
    interval from -500,000.0 to 1,000,000.0: whatever the run, the double of
    each [Drift] record stands for a value strictly above -500,000.0 and at
    most 1,000,000.0, and the text written for it, rounded to one decimal by
    ["%.1f"], is that of [q] tenths with [q] at most 5,000,000 under the
    minus sign and at most 10,000,000 otherwise. *)
Theorem emitted_drift_in_range (tr : list event) (m : machine)
        (seq : Z) (minus : bool) (us iv tcxo : float) :
  run init tr = Some m ->
  In (Drift seq minus us iv tcxo) (serial (hw m)) ->
  (-500000.0 <? signed_us minus us)%float = true /\
  (signed_us minus us <=? 1000000.0)%float = true /\
  exists q : Z,
    scaled 1 us = Some (false, q) /\
    0 <= q <= (if minus then 5000000 else 10000000) /\
    drift_field (Drift seq minus us iv tcxo)
    = Some ((if minus then "-" else "")
              ++ decimal (q / 10) ++ "." ++ decimal (q mod 10))%string.
Proof.
  intros Hrun Hin.
  destruct (tracking_inv_run tr m Hrun) as [_ Hall].
  rewrite Forall_forall in Hall. destruct (Hall _ Hin) as [dt Hdt].
  pose proof (drift_in_range dt) as Hrange. unfold reported_drift in Hrange.
  destruct (drift_printed dt) as (q & Hq & Hb).
  rewrite <- Hdt in Hrange, Hq, Hb. cbn [fst snd] in Hrange, Hq, Hb.
  split; [exact (proj1 Hrange)|]. split; [exact (proj2 Hrange)|].
  exists q. split; [exact Hq|]. split; [exact Hb|].
  apply drift_field_text. exact Hq.
Qed.

(** The record of the ideal scenario: the timer fires 10 us after the
    edge. *)
Lemma emitted_drift_in_range_witness :
  (-500000.0 <? signed_us false 10.0)%float = true /\
  (signed_us false 10.0 <=? 1000000.0)%float = true /\
  drift_field (Drift 1 false 10.0 999999.995 1000000.0)
  = Some "10.0"%string.
Proof.
  destruct (emitted_drift_in_range ideal_tracking (final ideal_tracking)
                                   1 false 10.0 999999.995 1000000.0)
    as (Hlo & Hhi & q & Hq & _ & Ht).
  - vm_compute. reflexivity.
  - vm_compute. repeat (first [left; reflexivity | right]).
  - split; [exact Hlo|]. split; [exact Hhi|].
    vm_compute. reflexivity.
Defined.

(** ** Calibration *)

(** C1, as stated, fails: on a 100 Hz reference the eleventh capture is
    observed before any gate window has completed, and [countRatio] is
    computed all the same, from the initial [tcxoMicros] that no measurement
    has set. *)
Lemma calibration_without_measurement :
  gates brisk_run = 0%nat /\
  count_steps calibrates init brisk_run = 1%nat /\
  option_map (fun m => (firstTimeFlag (st m), tcxoMicros (st m),
                        countRatio (st m)))
             (run init brisk_run)
  = Some (false, 1000000.0%float, (10000.0 / 1000000.0)%float).
Proof. repeat split; vm_compute; reflexivity. Qed.

(** C1, amended. In every run [countRatio] is computed at most once:
    exactly when [loop] observes its eleventh change of the reference
    capture, after the ten warm-up observations, hence after at least eleven
    reference edges.  Until then [countRatio] holds its initial value; from
    then on it holds the quotient [ppsMicros / tcxoMicros] formed by that one
    step from the [tcxoMicros] of the moment, and no other step of any run
    changes it.  No completed measurement is required: if no gate window has
    completed, [tcxoMicros] still holds its initial 1,000,000.0. *)
Theorem calibration_at_eleventh_capture (tr : list event) (m : machine) :
  run init tr = Some m ->
  let obs := count_steps observes_pps init tr in
  count_steps calibrates init tr = (if (11 <=? obs)%nat then 1 else 0)%nat /\
  firstTimeFlag (st m) = (obs <=? 10)%nat /\
  firstTimeCount (st m) = Z.of_nat (Nat.min obs 10) /\
  (obs <= edges tr)%nat /\
  (gates tr = 0%nat -> tcxoMicros (st m) = 1000000.0%float) /\
  ((obs <= 10)%nat -> countRatio (st m) = 1000000000000.0%float) /\
  ((11 <= obs)%nat ->
   exists tr1 tr2 m1,
     tr = tr1 ++ Main :: tr2 /\ run init tr1 = Some m1 /\
     calibrates m1 Main = true /\
     count_steps observes_pps init tr1 = 10%nat /\
     countRatio (st m)
     = (of_uint32 (sub32 (pc (lo m1)) (lastPpsCycles (st m1))) / 600.0
        / tcxoMicros (st m1))%float) /\
  (forall e m',
      step m e = Some m' ->
      if calibrates m e
      then obs = 10%nat /\
           countRatio (st m')
           = (of_uint32 (sub32 (pc (lo m)) (lastPpsCycles (st m))) / 600.0
              / tcxoMicros (st m))%float
      else countRatio (st m') = countRatio (st m)).
Proof.
  intros Hrun obs.
  pose proof (counting_inv_run tr init m 0 0 0 0 Hrun counting_inv_init)
    as (Hp & Hc & Hf & Hcal & Hg).
  cbn [Nat.add] in *. fold obs in Hp, Hc, Hf, Hcal.
  assert (Hten : forall (t : list event) (m1 : machine),
             run init t = Some m1 -> calibrates m1 Main = true ->
             count_steps observes_pps init t = 10%nat).
  { clear. intros t m1 Ht Hc1.
    pose proof (counting_inv_run t init m1 0 0 0 0 Ht counting_inv_init)
      as (_ & Hc & Hf & _).
    cbn [Nat.add] in *. unfold calibrates in Hc1.
    apply andb_prop in Hc1 as [Hc1 Hflag]. apply andb_prop in Hc1 as [_ Hge].
    rewrite Hflag in Hf. symmetry in Hf. apply Nat.leb_le in Hf.
    apply negb_true_iff, Z.ltb_ge in Hge. lia. }
  split.
  { rewrite Hcal. destruct (Nat.leb_spec obs 10), (Nat.leb_spec 11 obs);
      try reflexivity; lia. }
  split; [exact Hf|]. split; [exact Hc|]. split; [lia|].
  split; [intros H0; apply Hg; exact H0|].
  split; [|split].
  - intros Ho. apply (ratio_initial_run tr m Hrun).
    rewrite Hf. apply Nat.leb_le. exact Ho.
  - intros Ho.
    assert (Hflag : firstTimeFlag (st m) = false).
    { rewrite Hf. apply Nat.leb_gt. lia. }
    destruct (ratio_history tr m Hrun Hflag)
      as (tr1 & tr2 & m1 & Htr & H1 & H2 & H3).
    exists tr1, tr2, m1. repeat split; auto. exact (Hten tr1 m1 H1 H2).
  - intros e m' Hs. destruct (calibrates m e) eqn:Hce.
    + pose proof (calibrates_main m e Hce) as ->. split.
      * exact (Hten tr m Hrun Hce).
      * exact (proj1 (calibrates_step m Main m' Hs Hce)).
    + exact (proj1 (ratio_step m e m' Hs Hce)).
Qed.

(** The 100 Hz run: eleven observations, one calibration, no gate window. *)
Lemma calibration_at_eleventh_capture_witness :
  exists m : machine,
    run init brisk_run = Some m /\
    count_steps calibrates init brisk_run = 1%nat /\
    firstTimeFlag (st m) = false /\
    (11 <= edges brisk_run)%nat /\
    (gates brisk_run = 0%nat -> tcxoMicros (st m) = 1000000.0%float) /\
    exists tr1 tr2 m1,
      brisk_run = tr1 ++ Main :: tr2 /\ run init tr1 = Some m1 /\
      calibrates m1 Main = true /\
      count_steps observes_pps init tr1 = 10%nat /\
      countRatio (st m)
      = (of_uint32 (sub32 (pc (lo m1)) (lastPpsCycles (st m1))) / 600.0
         / tcxoMicros (st m1))%float.
Proof.
  exists (final brisk_run).
  assert (Hrun : run init brisk_run = Some (final brisk_run))
    by (vm_compute; reflexivity).
  destruct (calibration_at_eleventh_capture brisk_run (final brisk_run) Hrun)
    as (Hcal & Hf & _ & He & Hg & _ & Hr & _).
  assert (Hobs : count_steps observes_pps init brisk_run = 11%nat)
    by (vm_compute; reflexivity).
  rewrite Hobs in Hcal, Hf, He, Hr.
  split; [exact Hrun|]. split; [exact Hcal|]. split; [exact Hf|].
  split; [exact He|]. split; [exact Hg|]. apply Hr. apply le_n.
Defined.

(** C9. While [firstTimeFlag] is still true nothing of the interval side has
    happened: [intervalCycles] and [lastIntervalCycles] are both still 0, the
    interval interrupt cannot fire, [loop] does not enter the interval
    branch, [myTimer] has received no call and no drift record has been
    written.  In every state the first call [myTimer] received, if any, is
    [begin], so [update] never precedes it. *)
Theorem no_interval_work_before_calibration (tr : list event) (m : machine) :
  run init tr = Some m ->
  (firstTimeFlag (st m) = true ->
   intervalCycles (sh m) = 0 /\
   lastIntervalCycles (st m) = 0 /\
   intervalCount (st m) = 0 /\
   (forall c, step m (TimerFire c) = None) /\
   observes_interval m Main = false /\
   timer_calls (hw m) = [] /\
   filter is_drift (serial (hw m)) = []) /\
  match timer_calls (hw m) with
  | Update _ :: _ => False
  | _ => True
  end.
Proof.
  intros Hrun. destruct (tracking_inv_run tr m Hrun) as [Hphase _].
  destruct (firstTimeFlag (st m)).
  - destruct Hphase as (Hi & Hic & Hl & Hn & Hc & Hd & _). split.
    + intros _. repeat split; auto.
      * intros c. unfold step, timer_running. rewrite Hc. cbn [existsb].
        rewrite andb_false_r. reflexivity.
      * unfold observes_interval. destruct (at_line m); try reflexivity.
        rewrite Hic, Hl. reflexivity.
    + rewrite Hc. exact I.
  - destruct Hphase as (_ & p & rest & -> & _). split; [discriminate|exact I].
Qed.

(** The ideal warm-up: ten captures observed, nothing of the interval side
    yet. *)
Lemma no_interval_work_before_calibration_witness :
  firstTimeFlag (st (final ideal_warmup)) = true /\
  timer_calls (hw (final ideal_warmup)) = [] /\
  filter is_drift (serial (hw (final ideal_warmup))) = [].
Proof.
  assert (Hf : firstTimeFlag (st (final ideal_warmup)) = true)
    by (vm_compute; reflexivity).
  split; [exact Hf|].
  destruct (no_interval_work_before_calibration
              ideal_warmup (final ideal_warmup)) as [H _];
    [vm_compute; reflexivity|].
  destruct (H Hf) as (_ & _ & _ & _ & _ & Hc & Hd).
  split; [exact Hc|exact Hd].
Defined.

(** C4. The timer is never started before the calibration ratio is set:
    while [firstTimeFlag] is true [myTimer] has received no call.  The step
    that starts it is the step that computes [countRatio], and the call is
    [begin] with exactly [countRatio * tcxoMicros], no fudge subtracted. *)
Theorem timer_started_by_calibration
        (tr : list event) (m : machine) (e : event) (m' : machine) :
  run init tr = Some m -> step m e = Some m' ->
  (firstTimeFlag (st m) = true -> timer_calls (hw m) = []) /\
  (timer_calls (hw m) = [] /\ timer_calls (hw m') <> []
   <-> calibrates m e = true) /\
  (calibrates m e = true ->
   countRatio (st m')
   = (of_uint32 (sub32 (pc (lo m)) (lastPpsCycles (st m))) / 600.0
      / tcxoMicros (st m))%float /\
   tcxoMicros (st m') = tcxoMicros (st m) /\
   firstTimeFlag (st m') = false /\
   timer_calls (hw m')
   = [Begin (countRatio (st m') * tcxoMicros (st m'))%float]).
Proof.
  intros Hrun H.
  pose proof (tracking_inv_phase m e (tracking_inv_run tr m Hrun)) as Hphase.
  pose proof (timer_calls_step m e m' H) as Hcalls.
  unfold new_timer_calls in Hcalls.
  split; [|split].
  - intros Hf. rewrite Hf in Hphase. tauto.
  - split.
    + intros [Hnil Hne]. rewrite Hnil in Hcalls.
      destruct (calibrates m e); [reflexivity|].
      destruct (firstTimeFlag (st m)); destruct Hphase as [Hc Ho].
      * rewrite Ho in Hcalls. contradiction.
      * contradiction.
    + intros Hcal. rewrite Hcal in Hcalls.
      destruct (firstTimeFlag (st m)); destruct Hphase as [Hc Ho].
      * split; [exact Hc|]. rewrite Hcalls, Hc. discriminate.
      * rewrite Hcal in Ho. discriminate.
  - intros Hcal. destruct (calibrates_step m e m' H Hcal) as (Hr & Ht & Hf).
    repeat split; auto.
    rewrite Hcal in Hcalls.
    assert (Hflag : firstTimeFlag (st m) = true).
    { unfold calibrates in Hcal. apply andb_prop in Hcal. tauto. }
    rewrite Hflag in Hphase. destruct Hphase as [Hc _].
    rewrite Hcalls, Hc, Hr, Ht. reflexivity.
Qed.

(** The calibrating step of the ideal scenario. *)
Lemma timer_started_by_calibration_witness :
  calibrates (final ideal_at_164) Main = true /\
  countRatio (st (loop (final ideal_at_164))) = 1.0%float /\
  timer_calls (hw (loop (final ideal_at_164))) = [Begin 1000000.0].
Proof.
  assert (Hc : calibrates (final ideal_at_164) Main = true)
    by (vm_compute; reflexivity).
  destruct (timer_started_by_calibration
              ideal_at_164 (final ideal_at_164) Main
              (loop (final ideal_at_164)))
    as (_ & _ & Hval); [vm_compute; reflexivity|vm_compute; reflexivity|].
  destruct (Hval Hc) as (Hr & _ & _ & Hb).
  split; [exact Hc|].
  split; [rewrite Hr|rewrite Hb]; vm_compute; reflexivity.
Defined.

(** ** Interval re-synchronisation *)




(** ** Cross-domain hand-off *)

(** C8. Whatever the interleaving of the handlers with [loop], the pair
    [(pc, tc)] copied in the critical section of lines 159-162 is the capture
    published by one run of [ppsInterrupt] (or the initial pair of zeros when
    no edge has been handled yet): right after the copies it is the latest
    capture, and when line 164 uses it it is still one of the captures. *)
Theorem no_torn_capture (tr : list event) (m : machine) :
  run init tr = Some m ->
  (at_line m = L162 -> (pc (lo m), tc (lo m)) = latest_capture tr) /\
  (at_line m = L164 -> In (pc (lo m), tc (lo m)) ((0, 0) :: captures tr)).
Proof.
  intros Hrun.
  destruct (handoff_inv_run tr init m [] None Hrun handoff_inv_init)
    as (pending' & _ & Hl & Hi & Hat).
  cbn [app] in *. fold (captures tr) in *. unfold latest_capture. split.
  - intros Heq. rewrite Heq in Hat. destruct Hat as [Hirq Hpair].
    rewrite Hpair. apply Hl, Hi, Hirq.
  - intros Heq. rewrite Heq in Hat. exact Hat.
Qed.

(** The first edge of the ideal scenario, as [loop] copies it. *)
Lemma no_torn_capture_witness :
  (pc (lo (final first_edge_at_162)), tc (lo (final first_edge_at_162)))
  = (1200000000, 0).
Proof.
  assert (Hat : at_line (final first_edge_at_162) = L162)
    by (vm_compute; reflexivity).
  destruct (no_torn_capture first_edge_at_162 (final first_edge_at_162))
    as [H _]; [vm_compute; reflexivity|].
  rewrite (H Hat). vm_compute. reflexivity.
Defined.

(** ** The ideal scenario *)

(** C6, as stated, fails: in the ideal scenario calibration does produce
    [tcxoMicros = 1000000.0] and [countRatio = 1.0], but the timer is started
    with 1,000,000.0, which does not print as 999,995.0. *)
Lemma ideal_start_not_fudged :
  timer_calls (hw (final ideal_run)) = [Begin 1000000.0] /\
  approx 1000000.0 999995.0 = false.
Proof. split; vm_compute; reflexivity. Qed.

(** C6, amended. In the ideal scenario (edges 600,000,000 cycles apart,
    windows of exactly 10,000,000 pulses) calibration produces
    [tcxoMicros = 1000000.0] and [countRatio = 1.0] and starts the timer with
    an initial period of exactly 1,000,000.0; the fudge is first applied by
    the update after the first firing, which programs 999,999.995. *)
Theorem ideal_scenario :
  run init ideal_run <> None /\
  count_steps calibrates init ideal_run = 1%nat /\
  tcxoMicros (st (final ideal_run)) = 1000000.0%float /\
  countRatio (st (final ideal_run)) = 1.0%float /\
  timer_calls (hw (final ideal_run)) = [Begin 1000000.0] /\
  run init ideal_tracking <> None /\
  timer_calls (hw (final ideal_tracking))
  = [Begin 1000000.0; Update 999999.995].
Proof.
  repeat split; try (vm_compute; reflexivity); vm_compute; discriminate.
Qed.

(** * Further properties *)

(** ** The output of a run *)

#[local] Arguments warmup_lines : simpl never.

Lemma output_inv_init : output_inv init.
Proof.
  unfold output_inv. cbn. repeat split; try lia; try discriminate.
Qed.

Lemma warmup_lines_snoc (ds : list Z) (d : Z) :
  warmup_lines ds ++ [Tally d; Waiting] = warmup_lines (ds ++ [d]).
Proof.
  unfold warmup_lines. rewrite flat_map_app. reflexivity.
Qed.

Lemma add32_wrap32_succ (n : nat) :
  add32 (wrap32 (Z.of_nat n)) 1 = wrap32 (Z.of_nat (S n)).
Proof.
  unfold add32, wrap32. rewrite Zplus_mod_idemp_l. f_equal. lia.
Qed.

Lemma wrap32_range (z : Z) : 0 <= wrap32 z < 4294967296.
Proof. unfold wrap32. apply Z.mod_pos_bound. lia. Qed.

Lemma output_inv_step (m : machine) (e : event) (m' : machine) :
  step m e = Some m' -> tracking_inv m -> output_inv m -> output_inv m'.
Proof.
  intros H. step_cases m e H; unfold tracking_inv, output_inv; cbn;
    try (intros _ Hinv; exact Hinv).
  - (* GateDone: FreqCount has been started *)
    apply andb_prop in Hen as [_ ->].
    intros _ (H1 & H2 & H3 & H4 & H5). repeat split; try tauto;
      match goal with
      | H0 : ftc = 0 |- _ => rewrite H0 in H3; discriminate H3
      end.
  - (* Main *)
    unfold loop. destruct at0; cbn; try (intros _ Hinv; exact Hinv).
    + (* lines 118-147 *)
      unfold interval_block. cbn.
      destruct (Z.eqb_spec ic0 lic) as [_|Hne]; cbn;
        [intros _ Hinv; exact Hinv|].
      intros [Hphase _] (H1 & H2 & H3 & H4 & H5 & H6 & H8 & H7).
      destruct ftf.
      { destruct Hphase as (_ & Hi & Hl & _). cbn in Hi, Hl. lia. }
      specialize (H6 eq_refl). subst ftc.
      destruct (H7 ltac:(lia)) as (ds & drifts & Hlen & Hd & Hs & Hseq & Hn & p
                                   & Hc & Hiv).
      repeat split; try lia; try tauto; try apply wrap32_range;
        try discriminate.
      intros _. exists ds, (drifts ++ [Drift (add32 icnt 1)
                                         (fst (drift_report dt0))
                                         (snd (drift_report dt0))
                                         (cr * tm - 0.005)%float tm]).
      split; [exact Hlen|]. split.
      { rewrite forallb_app, Hd. reflexivity. }
      split.
      { rewrite Hs, <- app_assoc. reflexivity. }
      rewrite !map_app, length_app, Nat.add_1_r, seq_S, map_app. cbn.
      split.
      { rewrite Hseq, Hn, add32_wrap32_succ. reflexivity. }
      split.
      { rewrite Hn. apply add32_wrap32_succ. }
      exists p. split.
      { rewrite Hc. reflexivity. }
      rewrite last_last. reflexivity.
    + (* lines 149-157 *)
      unfold freq_block. cbn. destruct fr; cbn;
        [|intros _ Hinv; exact Hinv].
      intros _ (H1 & H2 & H3 & H4 & H5). repeat split; try tauto;
        match goal with
        | H0 : ftc = 0 |- _ =>
          destruct (H4 H0) as (_ & Hr & _); discriminate Hr
        end.
    + (* lines 164-207 *)
      unfold pps_block. cbn.
      destruct (pc0 =? lpc); cbn; [intros _ Hinv; exact Hinv|].
      intros [Hphase _] (H1 & H2 & H3 & H4 & H5 & H6 & H8 & H7).
      destruct (Z.ltb_spec ftc 10) as [Hlt|Hge]; cbn.
      * destruct ftf; [|specialize (H6 eq_refl); lia].
        destruct (H8 eq_refl) as [-> ->].
        destruct (Z.eqb_spec ftc 0) as [->|Hnz]; cbn.
        -- destruct (H4 eq_refl) as (Hs & Hr & Ht).
           repeat split; try lia; try tauto; try discriminate;
             try reflexivity.
           intros _. exists [], []. rewrite Hs. cbn. auto.
        -- destruct (H7 ltac:(lia)) as (ds & drifts & Hlen & Hd & Hs & ->).
           repeat split; try lia; try discriminate; try reflexivity.
           { rewrite H3. destruct (Z.leb_spec 1 ftc), (Z.leb_spec 1 (ftc + 1));
               try reflexivity; lia. }
           intros _. exists (ds ++ [sub32 tc0 lptc]), [].
           rewrite length_app, Hs, warmup_lines_snoc. cbn.
           repeat split; auto; lia.
      * destruct ftf; cbn; [|intros; repeat split; tauto].
        assert (ftc = 10) by lia. subst ftc.
        destruct (H7 ltac:(lia)) as (ds & drifts & Hlen & Hd & Hs & ->).
        destruct Hphase as (_ & _ & _ & Hn & Hc & _). cbn in Hn, Hc.
        repeat split; try lia; try tauto.
        intros _. exists ds, []. rewrite Hs, Hc, Hn. cbn.
        repeat split; auto. eauto.
Qed.

Lemma output_inv_run (tr : list event) (m : machine) :
  run init tr = Some m -> output_inv m.
Proof.
  intros H.
  refine (proj2 (run_invariant (fun m => tracking_inv m /\ output_inv m)
                               _ tr init m H
                               (conj tracking_inv_init output_inv_init))).
  intros m0 e m1 He [Ht Ho]. split.
  - exact (tracking_inv_step _ _ _ He Ht).
  - exact (output_inv_step _ _ _ He Ht Ho).
Qed.

Lemma filter_drift_warmup (ds : list Z) :
  filter is_drift (warmup_lines ds) = [].
Proof.
  unfold warmup_lines. cbn [filter is_drift].
  induction ds as [|d ds IH]; [reflexivity|exact IH].
Qed.

Lemma forallb_filter_id {A : Type} (p : A -> bool) (l : list A) :
  forallb p l = true -> filter p l = l.
Proof.
  induction l as [|a l IH]; [reflexivity|]. cbn [forallb filter].
  intros H. apply andb_prop in H as [Ha Hl]. rewrite Ha, (IH Hl).
  reflexivity.
Qed.

(** X1. The serial output of every run has one shape: nothing until the
    first capture is observed; then "waiting...", followed by one tally
    delta and "waiting..." per further warm-up capture ([firstTimeCount - 1]
    of them); then, once calibrated, the calibration message; and after it
    nothing but drift records. *)
Theorem serial_output_shape (tr : list event) (m : machine) :
  run init tr = Some m ->
  0 <= firstTimeCount (st m) <= 10 /\
  (firstTimeCount (st m) = 0 -> serial (hw m) = []) /\
  (0 < firstTimeCount (st m) ->
   exists (ds : list Z) (drifts : list line),
     Z.of_nat (length ds) = firstTimeCount (st m) - 1 /\
     forallb is_drift drifts = true /\
     serial (hw m)
     = warmup_lines ds
         ++ (if firstTimeFlag (st m) then [] else Calibrated :: drifts)).
Proof.
  intros H.
  destruct (output_inv_run tr m H) as (H1 & _ & _ & H4 & _ & _ & _ & H7).
  split; [exact H1|]. split; [intros H0; apply (H4 H0)|].
  intros Hpos. destruct (H7 Hpos) as (ds & drifts & Hlen & Hd & Hs).
  exists ds, drifts. split; [exact Hlen|]. split; [exact Hd|].
  destruct (firstTimeFlag (st m)).
  - destruct Hs as [-> _]. rewrite app_nil_r. reflexivity.
  - destruct Hs as [-> _]. reflexivity.
Qed.

(** The ideal scenario after its first drift record: ten "waiting..." lines,
    nine tally deltas, the calibration message and one drift record. *)
Lemma serial_output_shape_witness :
  firstTimeCount (st (final ideal_tracking)) = 10 /\
  exists (ds : list Z) (drifts : list line),
    Z.of_nat (length ds) = 9 /\
    forallb is_drift drifts = true /\
    serial (hw (final ideal_tracking))
    = warmup_lines ds ++ Calibrated :: drifts.
Proof.
  assert (Hc : firstTimeCount (st (final ideal_tracking)) = 10)
    by (vm_compute; reflexivity).
  assert (Hf : firstTimeFlag (st (final ideal_tracking)) = false)
    by (vm_compute; reflexivity).
  split; [exact Hc|].
  destruct (serial_output_shape ideal_tracking (final ideal_tracking))
    as (_ & _ & H); [vm_compute; reflexivity|].
  rewrite Hc, Hf in H. apply H. reflexivity.
Defined.

Lemma last_cons_default {A : Type} (a d : A) (l : list A) :
  last (a :: l) d = last l a.
Proof.
  revert a d. induction l as [|b l IH]; intros a d; [reflexivity|].
  change (last (a :: b :: l) d) with (last (b :: l) d).
  rewrite !IH. reflexivity.
Qed.

(** The correspondence of drift records and [update] calls, shared by the
    properties below. *)
Lemma drift_records_updates_run (tr : list event) (m : machine) :
  run init tr = Some m ->
  let records := filter is_drift (serial (hw m)) in
  map call_period (tl (timer_calls (hw m))) = map line_iv records /\
  existsb is_begin (tl (timer_calls (hw m))) = false /\
  map line_seq records
  = map (fun k => wrap32 (Z.of_nat k)) (seq 1 (length records)) /\
  intervalCount (st m) = wrap32 (Z.of_nat (length records)) /\
  interval (st m)
  = last (map call_period (timer_calls (hw m))) 1000000.0%float.
Proof.
  intros H records. subst records.
  destruct (tracking_inv_run tr m H) as [Hphase _].
  destruct (output_inv_run tr m H) as (H1 & _ & _ & H4 & _ & H6 & H8 & H7).
  destruct (firstTimeFlag (st m)).
  - destruct Hphase as (_ & _ & _ & Hn & Hc & Hd & _).
    destruct (H8 eq_refl) as [Hiv _].
    rewrite Hc, Hd, Hn, Hiv. repeat split; reflexivity.
  - specialize (H6 eq_refl).
    destruct (H7 ltac:(lia))
      as (ds & drifts & _ & Hd & Hs & Hseq & Hn & p & Hc & Hiv).
    rewrite Hs, filter_app, filter_drift_warmup. cbn [app filter is_drift].
    rewrite (forallb_filter_id _ _ Hd), Hc. cbn [tl map call_period].
    assert (Hmap : map call_period (map Update (map line_iv drifts))
                   = map line_iv drifts).
    { rewrite map_map. cbn [call_period]. apply map_id. }
    rewrite Hmap, last_cons_default.
    repeat split; auto.
    clear. induction (map line_iv drifts) as [|x l IH]; [reflexivity|].
    exact IH.
Qed.



(** ** Ranges of the integers *)

Lemma uint32_wrap32 (z : Z) : uint32 (wrap32 z).
Proof. apply wrap32_range. Qed.

Lemma wrap32_uint32 (z : Z) : uint32 z -> wrap32 z = z.
Proof. intros H. unfold wrap32. apply Z.mod_small. exact H. Qed.

Lemma uint32_add32 (a b : Z) : uint32 (add32 a b).
Proof. apply wrap32_range. Qed.

Lemma uint32_sub32 (a b : Z) : uint32 (sub32 a b).
Proof. apply wrap32_range. Qed.

Lemma uint32_tally (cntr hold : Z) : uint32 (tally cntr hold).
Proof. apply wrap32_range. Qed.

Lemma uint32_inv_init : uint32_inv init.
Proof. unfold uint32_inv, uint32. cbn. repeat split; lia. Qed.

Ltac uint32_fields :=
  repeat match goal with |- _ /\ _ => split end;
  auto using uint32_wrap32, uint32_add32, uint32_sub32, uint32_tally.

Lemma uint32_inv_step (m : machine) (e : event) (m' : machine) :
  step m e = Some m' -> uint32_inv m -> uint32_inv m'.
Proof.
  intros H. step_cases m e H; unfold uint32_inv; cbn;
    intros (H1 & H2 & H3 & H4 & H5 & H6 & H7 & H8 & H9 & H10 & H11 & H12);
    try (uint32_fields; fail).
  unfold loop. destruct at0; cbn; try (uint32_fields; fail).
  - unfold interval_block. cbn. destruct (ic0 =? lic); cbn; uint32_fields.
  - unfold freq_block. cbn. destruct fr; cbn; uint32_fields.
  - unfold pps_block. cbn.
    destruct (pc0 =? lpc), (ftc <? 10), (ftc =? 0), ftf; cbn;
      uint32_fields.
Qed.

Lemma uint32_inv_run (tr : list event) (m : machine) :
  run init tr = Some m -> uint32_inv m.
Proof.
  intros H.
  exact (run_invariant _ uint32_inv_step tr init m H uint32_inv_init).
Qed.

(** ** The oscillator counter during warm-up *)

(** X3. [FreqCount.begin] has been called exactly when [loop] has observed
    at least one reference capture.  Until then no gate window can complete,
    no count is waiting and [tcxoMicros] keeps its initial 1,000,000.0. *)
Theorem freqcount_started_by_first_capture (tr : list event) (m : machine) :
  run init tr = Some m ->
  freq_begun (hw m) = (1 <=? count_steps observes_pps init tr)%nat /\
  (count_steps observes_pps init tr = 0%nat ->
   (forall n, step m (GateDone n) = None) /\
   freq_ready (hw m) = None /\
   tcxoMicros (st m) = 1000000.0%float).
Proof.
  intros H.
  destruct (output_inv_run tr m H) as (_ & _ & Hb & H4 & _).
  pose proof (counting_inv_run tr init m 0 0 0 0 H counting_inv_init)
    as (_ & Hc & _).
  cbn [Nat.add] in Hc.
  set (obs := count_steps observes_pps init tr) in *.
  assert (Hiff : (1 <=? firstTimeCount (st m)) = (1 <=? obs)%nat).
  { rewrite Hc. destruct (Nat.leb_spec 1 obs), (Z.leb_spec 1 (Z.of_nat
                                                     (Nat.min obs 10)));
      try reflexivity; lia. }
  split; [rewrite Hb; exact Hiff|].
  intros H0. rewrite H0 in Hc. cbn in Hc.
  destruct (H4 Hc) as (_ & Hr & Ht). repeat split; auto.
  intros n. unfold step. rewrite Hb, Hc. change (1 <=? 0) with false.
  rewrite andb_false_r. reflexivity.
Qed.

(** Two edges handled while [loop] is still in [setup]'s shadow: nothing
    observed yet. *)
Lemma freqcount_started_by_first_capture_witness :
  freq_begun (hw (final (ideal_edge 0 ++ ideal_edge 1))) = false /\
  tcxoMicros (st (final (ideal_edge 0 ++ ideal_edge 1))) = 1000000.0%float.
Proof.
  destruct (freqcount_started_by_first_capture
              (ideal_edge 0 ++ ideal_edge 1)
              (final (ideal_edge 0 ++ ideal_edge 1)))
    as [Hb H0]; [vm_compute; reflexivity|].
  split; [rewrite Hb; vm_compute; reflexivity|].
  apply H0. vm_compute. reflexivity.
Defined.

(** X4. The first tally line is not a delta: when [loop] observes its second
    capture, [lastPpsTcxoCount] is still 0 (the first capture did not record
    its tally), so the line printed is the raw tally of that capture. *)
Theorem first_tally_is_raw (tr : list event) (m m' : machine) :
  run init tr = Some m -> step m Main = Some m' ->
  observes_pps m Main = true -> firstTimeCount (st m) = 1 ->
  serial (hw m) = [Waiting] /\
  serial (hw m') = [Waiting; Tally (tc (lo m)); Waiting] /\
  lastPpsTcxoCount (st m') = tc (lo m).
Proof.
  intros Hrun H Hobs Hone.
  destruct (output_inv_run tr m Hrun) as (_ & _ & _ & _ & H5 & H6 & _ & H7).
  destruct (uint32_inv_run tr m Hrun) as (_ & _ & _ & _ & _ & _ & _ & _ & _ & _
                                          & Htc & _).
  specialize (H5 ltac:(lia)).
  destruct (H7 ltac:(lia)) as (ds & drifts & Hlen & _ & Hs).
  assert (Hf : firstTimeFlag (st m) = true).
  { destruct (firstTimeFlag (st m)); [reflexivity|].
    specialize (H6 eq_refl). lia. }
  rewrite Hf in Hs. destruct Hs as [Hs _].
  assert (ds = []) by (destruct ds; [reflexivity|cbn in Hlen; lia]).
  subst ds. change (warmup_lines []) with [Waiting] in Hs.
  split; [exact Hs|].
  revert Hobs H Hone H5 Hs Htc. unfold observes_pps, step, loop.
  destruct m as [sh0 [lic lpc lptc tm ftc ftf iv cr icnt]
                   [ic0 dt0 pc0 tc0] [calls fb fr ser] at0 irq0 inpps0].
  cbn. destruct inpps0; [discriminate|].
  destruct at0; try discriminate.
  unfold pps_block. cbn.
  destruct (pc0 =? lpc); [discriminate|].
  intros _ H -> -> -> Htc. injection H as <-. cbn.
  unfold sub32. rewrite Z.sub_0_r, (wrap32_uint32 _ Htc). auto.
Qed.

(** The second edge of the ideal scenario, when [loop] reaches line 164. *)
Lemma first_tally_is_raw_witness :
  serial (hw (loop (final second_edge_at_164)))
  = [Waiting; Tally 10000000; Waiting].
Proof.
  destruct (first_tally_is_raw second_edge_at_164
                               (final second_edge_at_164)
                               (loop (final second_edge_at_164)))
    as (_ & Hs & _);
    [vm_compute; reflexivity|vm_compute; reflexivity
     |vm_compute; reflexivity|vm_compute; reflexivity|].
  rewrite Hs. vm_compute. reflexivity.
Defined.

(** ** Calibration is final *)

Lemma calibrated_step (m : machine) (e : event) (m' : machine) :
  step m e = Some m' -> firstTimeFlag (st m) = false ->
  countRatio (st m') = countRatio (st m) /\
  firstTimeFlag (st m') = false /\
  exists ups, timer_calls (hw m') = timer_calls (hw m) ++ map Update ups.
Proof.
  intros H. step_cases m e H; cbn; intros ->;
    try (repeat split; exists []; rewrite app_nil_r; reflexivity).
  unfold loop. destruct at0; cbn;
    try (repeat split; exists []; rewrite app_nil_r; reflexivity).
  - unfold interval_block. cbn. destruct (ic0 =? lic); cbn.
    + repeat split. exists []. rewrite app_nil_r. reflexivity.
    + repeat split. exists [(cr * tm - 0.005)%float]. reflexivity.
  - unfold freq_block. cbn. destruct fr; cbn;
      repeat split; exists []; rewrite app_nil_r; reflexivity.
  - unfold pps_block. cbn.
    destruct (pc0 =? lpc), (ftc <? 10), (ftc =? 0); cbn;
      repeat split; exists []; rewrite app_nil_r; reflexivity.
Qed.

(** X5. Calibration is final: from a calibrated state on, whatever happens,
    [countRatio] keeps its value, [firstTimeFlag] stays false and the timer
    receives nothing but [update] calls (it is never begun again). *)
Theorem calibration_is_final (tr : list event) (m m' : machine) :
  run m tr = Some m' -> firstTimeFlag (st m) = false ->
  countRatio (st m') = countRatio (st m) /\
  firstTimeFlag (st m') = false /\
  exists ups, timer_calls (hw m') = timer_calls (hw m) ++ map Update ups.
Proof.
  revert m. induction tr as [|e tr IH]; intros m Hrun Hf; cbn [run] in Hrun.
  - injection Hrun as <-. repeat split; auto.
    exists []. rewrite app_nil_r. reflexivity.
  - destruct (step m e) as [m1|] eqn:He; [|discriminate].
    destruct (calibrated_step m e m1 He Hf) as (Hr1 & Hf1 & ups1 & Hc1).
    destruct (IH m1 Hrun Hf1) as (Hr & Hf' & ups & Hc).
    rewrite Hr, Hr1, Hc, Hc1. repeat split; auto.
    exists (ups1 ++ ups). rewrite map_app, app_assoc. reflexivity.
Qed.

(** The ideal scenario, one second after calibration. *)
Lemma calibration_is_final_witness :
  countRatio (st (final ideal_tracking)) = 1.0%float /\
  firstTimeFlag (st (final ideal_tracking)) = false.
Proof.
  assert (Hr : countRatio (st (final ideal_run)) = 1.0%float)
    by (vm_compute; reflexivity).
  destruct (calibration_is_final ideal_next_second (final ideal_run)
                                 (final ideal_tracking))
    as (Hc & Hf & _); [vm_compute; reflexivity|vm_compute; reflexivity|].
  rewrite Hc. split; [exact Hr|exact Hf].
Defined.

(** ** Interrupt masking *)

Lemma masking_inv_step (m : machine) (e : event) (m' : machine) :
  step m e = Some m' -> masking_inv m -> masking_inv m'.
Proof.
  intros H. step_cases m e H; unfold masking_inv; cbn.
  - apply andb_prop in Hen as [-> _]. tauto.
  - tauto.
  - tauto.
  - tauto.
  - intros [Hi _]. unfold loop. destruct at0; cbn in *;
      split; try reflexivity; try exact Hi; discriminate.
Qed.

Lemma masking_inv_run (tr : list event) (m : machine) :
  run init tr = Some m -> masking_inv m.
Proof.
  intros H. refine (run_invariant _ masking_inv_step tr init m H _).
  split; [reflexivity|discriminate].
Qed.

(** X6. Interrupts are masked exactly inside the two critical sections of
    [loop] (lines 114-116 and 160-162): every [noInterrupts()] is matched by
    the [interrupts()] three statements later, and [ppsInterrupt] is never
    half-way through while they are masked. *)
Theorem interrupts_masked_only_in_critical_sections
        (tr : list event) (m : machine) :
  run init tr = Some m ->
  irq m = negb (in_critical (at_line m)) /\
  (in_critical (at_line m) = true -> in_pps m = false).
Proof.
  intros H. destruct (masking_inv_run tr m H) as [Hi Hp].
  split; [exact Hi|].
  intros Hc. rewrite Hc in Hi. destruct (in_pps m); [|reflexivity].
  rewrite (Hp eq_refl) in Hi. discriminate.
Qed.

(** [loop] between the copies of lines 160-161 and [interrupts()]. *)
Lemma interrupts_masked_only_in_critical_sections_witness :
  irq (final first_edge_at_162) = false /\
  in_pps (final first_edge_at_162) = false.
Proof.
  assert (Hat : at_line (final first_edge_at_162) = L162)
    by (vm_compute; reflexivity).
  destruct (interrupts_masked_only_in_critical_sections
              first_edge_at_162 (final first_edge_at_162))
    as [Hi Hp]; [vm_compute; reflexivity|].
  rewrite Hat in Hi, Hp. split; [exact Hi|apply Hp; reflexivity].
Defined.

(** ** The tally registers *)

Lemma lor_shiftl_16 (a b : Z) :
  0 <= a < 65536 -> Z.lor a (Z.shiftl b 16) = a + 65536 * b.
Proof.
  intros Ha.
  assert (Hland : Z.land a (Z.shiftl b 16) = 0).
  { apply Z.bits_inj'. intros n Hn. rewrite Z.land_spec, Z.bits_0.
    destruct (Z_lt_ge_dec n 16) as [Hlt|Hge].
    - rewrite (Z.shiftl_spec_low b 16 n Hlt). apply andb_false_r.
    - rewrite <- (Z.mod_small a (2 ^ 16)) by (change (2 ^ 16) with 65536; lia).
      rewrite Z.mod_pow2_bits_high by lia. reflexivity. }
  rewrite <- (Z.lxor_lor _ _ Hland), <- (Z.add_nocarry_lxor _ _ Hland).
  rewrite Z.shiftl_mul_pow2 by lia. change (2 ^ 16) with 65536. lia.
Qed.

Lemma tally_value (cntr hold : Z) :
  tally cntr hold = cntr mod 65536 + 65536 * (hold mod 65536).
Proof.
  unfold tally.
  pose proof (Z.mod_pos_bound cntr 65536 ltac:(lia)) as Hc.
  pose proof (Z.mod_pos_bound hold 65536 ltac:(lia)) as Hh.
  rewrite (lor_shiftl_16 _ _ Hc). apply wrap32_uint32. unfold uint32. lia.
Qed.

(** X7. The tally assembled at line 73 is the concatenation of the two
    16-bit counter registers: [CNTR + 65536 * HOLD], from which both
    registers can be read back; every 32-bit tally is assembled from its two
    halves. *)
Theorem tally_concatenates_registers (cntr hold : Z) :
  0 <= cntr < 65536 -> 0 <= hold < 65536 ->
  tally cntr hold = cntr + 65536 * hold /\
  tally cntr hold mod 65536 = cntr /\
  tally cntr hold / 65536 = hold /\
  tally (tally cntr hold mod 65536) (tally cntr hold / 65536)
  = tally cntr hold.
Proof.
  intros Hc Hh.
  assert (Hv : tally cntr hold = cntr + 65536 * hold).
  { rewrite tally_value, !Z.mod_small by lia. reflexivity. }
  assert (Hm : (cntr + 65536 * hold) mod 65536 = cntr).
  { replace (cntr + 65536 * hold) with (cntr + hold * 65536) by lia.
    rewrite Z_mod_plus_full. apply Z.mod_small. lia. }
  assert (Hd : (cntr + 65536 * hold) / 65536 = hold).
  { replace (cntr + 65536 * hold) with (cntr + hold * 65536) by lia.
    rewrite Z_div_plus_full by lia. rewrite Z.div_small by lia. lia. }
  rewrite Hv, Hm, Hd. repeat split; auto.
Qed.

Lemma tally_concatenates_registers_witness :
  tally 38528 152 = 10000000 /\
  tally 38528 152 mod 65536 = 38528 /\
  tally 38528 152 / 65536 = 152.
Proof.
  destruct (tally_concatenates_registers 38528 152) as (Hv & Hm & Hd & _);
    [lia|lia|].
  rewrite Hm, Hd, Hv. repeat split; reflexivity.
Defined.

(** ** Differences of cycle counts *)

(** X8. The cycle counter may wrap between two captures: if the timer fires
    [d] cycles (less than 2^32, about 7.1 s) after the reference edge, the
    two statements of lines 114-115 compute [dt = d], whatever the absolute
    counter value [c] of the edge. *)
Theorem elapsed_cycles_across_wrap (m : machine) (c d : Z) :
  0 <= d < 4294967296 ->
  at_line m = L114 ->
  ppsCycles (sh m) = wrap32 c ->
  intervalCycles (sh m) = wrap32 (c + d) ->
  dt (lo (loop (loop m))) = d /\ ic (lo (loop (loop m))) = wrap32 (c + d).
Proof.
  intros Hd Hat Hp Hi.
  destruct m as [[ivc ppc ptc] s [ic0 dt0 pc0 tc0] h at0 irq0 inpps0].
  cbn in Hat, Hp, Hi. subst at0 ppc ivc. cbn. split; [|reflexivity].
  unfold sub32, wrap32. rewrite <- Zminus_mod.
  replace (c + d - c) with d by lia. apply Z.mod_small. exact Hd.
Qed.

(** The timer fires 6,000 cycles after an edge captured 1,000 cycles before
    the counter wraps. *)
Lemma elapsed_cycles_across_wrap_witness :
  dt (lo (loop (loop (final wrap_at_114)))) = 6000.
Proof.
  refine (proj1 (elapsed_cycles_across_wrap (final wrap_at_114)
                                            4294966296 6000 _ _ _ _));
    [lia|vm_compute; reflexivity|vm_compute; reflexivity
     |vm_compute; reflexivity].
Defined.

(** ** Polling *)

Lemma in_pps_loop (m : machine) : in_pps (loop m) = in_pps m.
Proof. unfold loop. destruct (at_line m); reflexivity. Qed.

Lemma run_mains (n : nat) :
  forall m : machine,
    in_pps m = false -> run m (repeat Main n) = Some (Nat.iter n loop m).
Proof.
  induction n as [|n IH]; intros m H0; [reflexivity|].
  cbn [repeat run]. unfold step. rewrite H0.
  rewrite IH by (rewrite in_pps_loop; exact H0).
  rewrite <- Nat.iter_succ_r. reflexivity.
Qed.

Lemma run_pass (m : machine) :
  in_pps m = false -> run m pass = Some (Nat.iter 11 loop m).
Proof. apply run_mains. Qed.

Lemma in_pps_iter_loop (n : nat) (m : machine) :
  in_pps (Nat.iter n loop m) = in_pps m.
Proof.
  induction n as [|n IH]; [reflexivity|].
  rewrite Nat.iter_succ, in_pps_loop. exact IH.
Qed.

(** The eleven statements of a pass, composed. *)
Lemma pass_from_113 (g : shared) (s : statics) (l : locals) (h : periph)
      (i p : bool) :
  Nat.iter 11 loop
    {| sh := g; st := s; lo := l; hw := h; at_line := L113; irq := i;
       in_pps := p |}
  = let l1 := {| ic := intervalCycles g;
                 dt := sub32 (intervalCycles g) (ppsCycles g);
                 pc := pc l; tc := tc l |} in
    let b1 := interval_block l1 s h in
    let b2 := freq_block (fst b1) (snd b1) in
    let l2 := {| ic := ic l1; dt := dt l1; pc := ppsCycles g;
                 tc := ppsTcxoCount g |} in
    let b3 := pps_block l2 (fst b2) (snd b2) in
    {| sh := g; st := fst b3; lo := l2; hw := snd b3; at_line := L113;
       irq := true; in_pps := p |}.
Proof. reflexivity. Qed.

Lemma interval_block_idle (l : locals) (s : statics) (h : periph) :
  ic l = lastIntervalCycles s -> interval_block l s h = (s, h).
Proof. intros H. unfold interval_block. rewrite H, Z.eqb_refl. reflexivity. Qed.

Lemma interval_block_last (l : locals) (s : statics) (h : periph) :
  lastIntervalCycles (fst (interval_block l s h)) = ic l.
Proof.
  unfold interval_block.
  destruct (Z.eqb_spec (ic l) (lastIntervalCycles s)) as [H|_];
    [symmetry; exact H|reflexivity].
Qed.

Lemma freq_block_idle (s : statics) (h : periph) :
  freq_ready h = None -> freq_block s h = (s, h).
Proof. intros H. unfold freq_block. rewrite H. reflexivity. Qed.

Lemma freq_block_after (s : statics) (h : periph) :
  freq_ready (snd (freq_block s h)) = None /\
  lastIntervalCycles (fst (freq_block s h)) = lastIntervalCycles s.
Proof.
  unfold freq_block. destruct (freq_ready h) eqn:E; cbn; auto.
Qed.

Lemma pps_block_idle (l : locals) (s : statics) (h : periph) :
  pc l = lastPpsCycles s -> pps_block l s h = (s, h).
Proof. intros H. unfold pps_block. rewrite H, Z.eqb_refl. reflexivity. Qed.

Lemma pps_block_after (l : locals) (s : statics) (h : periph) :
  lastPpsCycles (fst (pps_block l s h)) = pc l /\
  lastIntervalCycles (fst (pps_block l s h)) = lastIntervalCycles s /\
  (freq_ready h = None -> freq_ready (snd (pps_block l s h)) = None).
Proof.
  unfold pps_block.
  destruct (Z.eqb_spec (pc l) (lastPpsCycles s)) as [H|_]; [cbn; auto|].
  destruct (firstTimeCount s <? 10), (firstTimeCount s =? 0),
    (firstTimeFlag s); cbn; auto.
Qed.

(** X9. Polling is idempotent: once [loop] has made a full pass with no
    interrupt in between, a further pass with no interrupt leaves the whole
    state as it is (no output, no call to the timer, no change of any
    variable). *)
Theorem idle_pass_changes_nothing (m m1 : machine) :
  at_line m = L113 -> run m pass = Some m1 -> run m1 pass = Some m1.
Proof.
  intros Hat H1.
  assert (Hp : in_pps m = false).
  { unfold pass in H1. cbn [repeat run] in H1. unfold step in H1.
    destruct (in_pps m); [discriminate|reflexivity]. }
  rewrite (run_pass m Hp) in H1.
  assert (Hm1 : m1 = Nat.iter 11 loop m) by congruence.
  clear H1. subst m1.
  rewrite run_pass by (rewrite !in_pps_iter_loop; exact Hp).
  f_equal.
  destruct m as [g s l h at0 irq0 inpps0].
  cbn [at_line] in Hat. subst at0.
  rewrite (pass_from_113 g s l h irq0 inpps0). cbv zeta.
  set (l1 := {| ic := intervalCycles g;
                dt := sub32 (intervalCycles g) (ppsCycles g);
                pc := pc l; tc := tc l |}).
  set (b1 := interval_block l1 s h).
  set (b2 := freq_block (fst b1) (snd b1)).
  set (l2 := {| ic := ic l1; dt := dt l1; pc := ppsCycles g;
                tc := ppsTcxoCount g |}).
  set (b3 := pps_block l2 (fst b2) (snd b2)).
  rewrite (pass_from_113 g (fst b3) l2 (snd b3) true inpps0). cbv zeta.
  destruct (freq_block_after (fst b1) (snd b1)) as [Hready Hlast2].
  fold b2 in Hready, Hlast2.
  destruct (pps_block_after l2 (fst b2) (snd b2)) as (Hpps & Hlast3 & Hkeep).
  fold b3 in Hpps, Hlast3, Hkeep.
  pose proof (interval_block_last l1 s h) as Hlast1. fold b1 in Hlast1.
  rewrite interval_block_idle
    by (cbn [ic]; rewrite Hlast3, Hlast2, Hlast1; reflexivity).
  cbn [fst snd].
  rewrite freq_block_idle by (apply Hkeep; exact Hready).
  cbn [fst snd].
  rewrite pps_block_idle by (cbn [pc]; rewrite Hpps; reflexivity).
  reflexivity.
Qed.

(** After the first firing of the ideal scenario nothing is left to do. *)
Lemma idle_pass_changes_nothing_witness :
  run (Nat.iter 11 loop (final ideal_tracking)) pass
  = Some (Nat.iter 11 loop (final ideal_tracking)).
Proof.
  apply (idle_pass_changes_nothing (final ideal_tracking));
    [vm_compute; reflexivity|].
  apply run_pass. vm_compute. reflexivity.
Defined.

(** ** A dead oscillator *)

Lemma Prim2SF_infinity : Prim2SF infinity = S754_infinity false.
Proof. vm_compute. reflexivity. Qed.

Lemma Prim2SF_nan : Prim2SF nan = S754_nan.
Proof. vm_compute. reflexivity. Qed.

(** Whatever [x] is, [x / inf * inf] is a NaN. *)
Lemma div_mul_infinity (x : float) : (x / infinity * infinity)%float = nan.
Proof.
  apply Prim2SF_inj.
  rewrite FloatAxioms.mul_spec, FloatAxioms.div_spec, Prim2SF_infinity,
    Prim2SF_nan.
  unfold SF64mul, SF64div.
  destruct (Prim2SF x) as [[|]|[|]| |[|] mx ex]; reflexivity.
Qed.

(** X10. A gate window that counted no pulse makes line 156 divide by zero:
    [tcxoMicros] becomes +infinity.  If calibration happens with that value,
    [countRatio * tcxoMicros] is a NaN, and the timer is begun with a NaN
    period. *)
Theorem dead_oscillator_poisons_calibration (m m' : machine) :
  step m Main = Some m' ->
  (at_line m = L149 -> freq_ready (hw m) = Some 0 ->
   tcxoMicros (st m') = infinity) /\
  (calibrates m Main = true -> tcxoMicros (st m) = infinity ->
   interval (st m') = nan /\
   timer_calls (hw m') = timer_calls (hw m) ++ [Begin nan]).
Proof.
  unfold step, calibrates, observes_pps, loop.
  destruct m as [sh0 [lic lpc lptc tm ftc ftf iv cr icnt]
                   [ic0 dt0 pc0 tc0] [calls fb fr ser] at0 irq0 inpps0].
  cbn. destruct inpps0; [discriminate|].
  intros H. injection H as <-. split.
  - intros -> ->. cbn. vm_compute. reflexivity.
  - destruct at0; cbn; try discriminate.
    unfold pps_block. cbn.
    destruct (pc0 =? lpc), (ftc <? 10), ftf; cbn; try discriminate.
    intros _ ->. cbn. rewrite div_mul_infinity. auto.
Qed.

(** The ideal reference with a dead oscillator, at the calibrating step. *)
Lemma dead_oscillator_poisons_calibration_witness :
  tcxoMicros (st (final dead_at_164)) = infinity /\
  timer_calls (hw (loop (final dead_at_164))) = [Begin nan].
Proof.
  assert (Ht : tcxoMicros (st (final dead_at_164)) = infinity)
    by (vm_compute; reflexivity).
  split; [exact Ht|].
  destruct (dead_oscillator_poisons_calibration
              (final dead_at_164) (loop (final dead_at_164)))
    as [_ H]; [vm_compute; reflexivity|].
  destruct (H ltac:(vm_compute; reflexivity) Ht) as [_ Hc].
  rewrite Hc. vm_compute. reflexivity.
Defined.

(** ** The reference after calibration *)

Lemma same_control_step (m1 m2 : machine) (e : event) (m1' : machine) :
  step m1 e = Some m1' -> same_control m1 m2 ->
  if is_pps e then same_control m1' m2
  else exists m2', step m2 e = Some m2' /\ same_control m1' m2'.
Proof.
  intros H. unfold same_control, control.
  destruct m2 as [[ivc2 ppc2 ptc2] [lic2 lpc2 lptc2 tm2 ftc2 ftf2 iv2 cr2 icnt2]
                    [ic2 dt2 pc2 tc2] [calls2 fb2 fr2 ser2] at2 irq2 inpps2].
  step_cases m1 e H; cbn;
    intros (Hc & Hf & Hn & Hp); injection Hc as <- <- <- <- <- <- <- <- <- <-
                                                 <- <- <- <-;
    subst inpps2 ftf.
  - auto.
  - auto.
  - unfold timer_running in *. cbn in *.
    apply andb_prop in Hen as [-> ->]. cbn. eexists. split; [reflexivity|].
    cbn. auto.
  - rewrite Hen. eexists. split; [reflexivity|]. cbn. auto.
  - eexists. split; [reflexivity|].
    unfold loop. destruct at0; cbn; auto.
    + unfold interval_block. cbn. destruct (ic0 =? lic); cbn; auto.
    + unfold freq_block. cbn. destruct fr; cbn; auto.
    + unfold pps_block. cbn.
      destruct (Z.ltb_spec ftc 10) as [Hlt|_]; [lia|].
      destruct (pc0 =? lpc), (pc2 =? lpc2); cbn; auto.
Qed.

(** X11. After calibration the reference plays no part in the control: if
    the reference edges are taken out of any continuation of a calibrated
    state, the run is still possible and ends with the same calls to the
    timer, the same [interval], [tcxoMicros] and [countRatio], and the same
    interval bookkeeping. *)
Theorem reference_unused_after_calibration
        (tr : list event) (m m' : machine) :
  run m tr = Some m' ->
  firstTimeFlag (st m) = false -> 10 <= firstTimeCount (st m) ->
  in_pps m = false ->
  exists m'', run m (without_pps tr) = Some m'' /\ control m'' = control m'.
Proof.
  intros Hrun Hf Hn Hp.
  assert (Hsim : forall tr m1 m2 m1',
             run m1 tr = Some m1' -> same_control m1 m2 ->
             exists m2', run m2 (without_pps tr) = Some m2' /\
                         same_control m1' m2').
  { clear. induction tr as [|e tr IH]; intros m1 m2 m1' Hrun HR;
      cbn [run] in Hrun.
    - injection Hrun as <-. exists m2. split; [reflexivity|exact HR].
    - destruct (step m1 e) as [m1a|] eqn:He; [|discriminate].
      pose proof (same_control_step _ _ _ _ He HR) as Hs.
      unfold without_pps in *. cbn [filter].
      destruct (is_pps e); cbn [negb].
      + exact (IH _ _ _ Hrun Hs).
      + destruct Hs as (m2a & He2 & HR').
        destruct (IH _ _ _ Hrun HR') as (m2' & Hrun2 & HR'').
        exists m2'. split; [|exact HR''].
        cbn [run]. rewrite He2. exact Hrun2. }
  destruct (Hsim tr m m m' Hrun) as (m'' & Hrun' & HR & _).
  { split; [reflexivity|]. auto. }
  exists m''. split; [exact Hrun'|]. symmetry. exact HR.
Qed.

(** The second after calibration of the ideal scenario, with and without
    edge 11: the timer receives the same calls. *)
Lemma reference_unused_after_calibration_witness :
  exists m'',
    run (final ideal_run) (without_pps ideal_next_second) = Some m'' /\
    timer_calls (hw m'') = [Begin 1000000.0; Update 999999.995].
Proof.
  destruct (reference_unused_after_calibration
              ideal_next_second (final ideal_run) (final ideal_tracking))
    as (m'' & Hrun & Hc);
    [vm_compute; reflexivity|vm_compute; reflexivity
     |vm_compute; discriminate|vm_compute; reflexivity|].
  exists m''. split; [exact Hrun|].
  assert (Ht : timer_calls (hw m'') = timer_calls (hw (final ideal_tracking))).
  { unfold control in Hc. congruence. }
  rewrite Ht. vm_compute. reflexivity.
Defined.

(** ** The first critical section *)

Lemma snapshot_inv_step (m : machine) (e : event) (m' : machine) :
  step m e = Some m' -> snapshot_inv m -> snapshot_inv m'.
Proof.
  intros H. step_cases m e H; unfold snapshot_inv; cbn.
  - apply andb_prop in Hen as [-> _]. intros [Hi _].
    split; [exact Hi|]. destruct at0; try exact I; discriminate Hi.
  - intros [Hi Hat]. split; [exact Hi|].
    destruct at0; try exact I; exact Hat.
  - apply andb_prop in Hen as [-> _]. intros [Hi _].
    split; [exact Hi|]. destruct at0; try exact I; discriminate Hi.
  - intros [Hi Hat]. split; [exact Hi|exact Hat].
  - intros [Hi Hat]. unfold loop. destruct at0; cbn in *;
      (split; [try reflexivity; try exact Hi; discriminate|]);
      try exact I; try reflexivity.
    rewrite Hat. auto.
Qed.

(** X13. The drift is computed from a consistent snapshot: when [loop]
    leaves its first critical section (line 116), [ic] is the current
    [intervalCycles] and [dt] is its difference, modulo 2^32, to the current
    [ppsCycles]; no handler has run between the two reads. *)
Theorem drift_from_consistent_snapshot (tr : list event) (m : machine) :
  run init tr = Some m -> at_line m = L116 ->
  ic (lo m) = intervalCycles (sh m) /\
  dt (lo m) = sub32 (intervalCycles (sh m)) (ppsCycles (sh m)) /\
  in_pps m = false.
Proof.
  intros H Hat.
  assert (Hinv : snapshot_inv m).
  { refine (run_invariant _ snapshot_inv_step tr init m H _).
    split; [reflexivity|exact I]. }
  destruct Hinv as [_ Hs]. rewrite Hat in Hs. destruct Hs as [Hic Hdt].
  repeat split; auto.
  destruct (masking_inv_run tr m H) as [Hi Hp]. rewrite Hat in Hi.
  destruct (in_pps m); [|reflexivity].
  rewrite (Hp eq_refl) in Hi. discriminate.
Qed.

(** The capture before the wrap and the firing after it, as copied. *)
Lemma drift_from_consistent_snapshot_witness :
  ic (lo (final wrap_at_116)) = 5000 /\
  dt (lo (final wrap_at_116)) = 6000.
Proof.
  destruct (drift_from_consistent_snapshot wrap_at_116 (final wrap_at_116))
    as (Hic & Hdt & _); [vm_compute; reflexivity|vm_compute; reflexivity|].
  rewrite Hic, Hdt. split; vm_compute; reflexivity.
Defined.

(** ** Drift records and firings *)

Lemma firing_inv_step (m : machine) (e : event) (m' : machine) (fired : nat) :
  step m e = Some m' -> firing_inv fired m ->
  firing_inv (fired + Nat.b2n (is_fire e)) m'.
Proof.
  intros H. step_cases m e H; unfold firing_inv, pending_interval; cbn;
    rewrite ?Nat.add_0_r.
  - destruct at0; auto.
  - destruct at0; auto.
  - (* TimerFire *)
    intros Hp.
    destruct at0;
      repeat match goal with
             | |- context [?a =? ?b] => destruct (Z.eqb_spec a b)
             | H : context [?a =? ?b] |- _ => destruct (Z.eqb_spec a b)
             end; lia.
  - destruct at0; auto.
  - (* Main *)
    unfold loop. destruct at0; cbn; auto.
    + (* line 114 *)
      rewrite Z.eqb_refl. destruct (ivc =? lic); auto.
    + (* lines 118-147 *)
      unfold interval_block. cbn.
      destruct (Z.eqb_spec ic0 lic) as [->|Hne]; cbn; [auto|].
      rewrite filter_app, length_app. cbn.
      destruct (ivc =? ic0); lia.
    + unfold freq_block. cbn. destruct fr; cbn; auto.
    + unfold pps_block. cbn.
      destruct (pc0 =? lpc), (ftc <? 10), (ftc =? 0), ftf; cbn;
        rewrite ?filter_app, ?length_app; cbn; rewrite ?Nat.add_0_r; auto.
Qed.

Lemma firing_inv_run (tr : list event) :
  forall (m m' : machine) (fired : nat),
    run m tr = Some m' -> firing_inv fired m ->
    firing_inv (fired + fires tr) m'.
Proof.
  induction tr as [|e tr IH]; intros m m' fired Hrun Hinv;
    cbn [run] in Hrun.
  - injection Hrun as <-. unfold fires. cbn. rewrite Nat.add_0_r. exact Hinv.
  - destruct (step m e) as [m1|] eqn:He; [|discriminate].
    pose proof (IH _ _ _ Hrun (firing_inv_step _ _ _ _ He Hinv)) as H.
    unfold fires in *. cbn [filter].
    destruct (is_fire e); cbn [Nat.b2n length] in *;
      rewrite ?Nat.add_0_r in H; [|exact H].
    rewrite Nat.add_succ_r. rewrite Nat.add_1_r in H. exact H.
Qed.

(** X14. No drift record without a firing: in every run the number of drift
    records (and of [update] calls) is at most the number of times the
    interval timer has fired; firings that [loop] does not get to see
    separately are merged, never invented. *)
Theorem drift_records_bounded_by_firings (tr : list event) (m : machine) :
  run init tr = Some m ->
  (length (filter is_drift (serial (hw m))) <= fires tr)%nat /\
  (length (tl (timer_calls (hw m))) <= fires tr)%nat.
Proof.
  intros H.
  pose proof (firing_inv_run tr init m 0 H) as Hf.
  unfold firing_inv in Hf. cbn [Nat.add] in Hf.
  assert (Hr : (length (filter is_drift (serial (hw m))) <= fires tr)%nat).
  { assert (H0 : (length (filter is_drift (serial (hw init)))
                  + pending_interval init <= 0)%nat) by (cbn; lia).
    specialize (Hf H0). lia. }
  split; [exact Hr|].
  destruct (drift_records_updates_run tr m H) as [Hcalls _].
  rewrite <- (length_map call_period), Hcalls, length_map. exact Hr.
Qed.

(** The ideal scenario after its first firing: one record, one firing. *)
Lemma drift_records_bounded_by_firings_witness :
  (length (filter is_drift (serial (hw (final ideal_tracking)))) <= 1)%nat.
Proof.
  exact (proj1 (drift_records_bounded_by_firings
                  ideal_tracking (final ideal_tracking)
                  ltac:(vm_compute; reflexivity))).
Defined.

(** * Quotients by 600.0, in integers *)

Lemma binary_round_aux_finish (mx ex : Z) (lx : location) :
  binary_round_aux prec emax false mx ex lx
  = finish_round
      (round_nearest_even
         (shr_m (fst (shr_fexp prec emax mx ex lx)))
         (loc_of_shr_record (fst (shr_fexp prec emax mx ex lx))))
      (snd (shr_fexp prec emax mx ex lx)).
Proof.
  unfold binary_round_aux, finish_round.
  destruct (shr_fexp prec emax mx ex lx) as [mrs' e']. reflexivity.
Qed.

Lemma shr_fexp_53 (p : positive) (e : Z) (l : location) :
  Zpos (digits2_pos p) = 53 -> -1074 <= e ->
  shr_fexp prec emax (Zpos p) e l = (shr_record_of_loc (Zpos p) l, e).
Proof.
  intros Hd He. unfold shr_fexp. cbn [Zdigits2]. rewrite Hd.
  replace (fexp prec emax (53 + e) - e) with 0
    by (unfold fexp, SpecFloat.emin, prec, emax; lia).
  reflexivity.
Qed.

Lemma shr_fexp_54 (p : positive) (e : Z) (l : location) :
  Zpos (digits2_pos p) = 54 -> -1075 <= e ->
  shr_fexp prec emax (Zpos p) e l
  = (shr_1 (shr_record_of_loc (Zpos p) l), e + 1).
Proof.
  intros Hd He. unfold shr_fexp. cbn [Zdigits2]. rewrite Hd.
  replace (fexp prec emax (54 + e) - e) with 1
    by (unfold fexp, SpecFloat.emin, prec, emax; lia).
  reflexivity.
Qed.

Lemma shr_m_of_loc (m : Z) (l : location) :
  shr_m (shr_record_of_loc m l) = m.
Proof. destruct l as [|[ | | ]]; reflexivity. Qed.

(** Dropping the last bit of a mantissa of at least two bits halves it. *)
Lemma shr_1_halves (p : positive) (l : location) :
  (1 < p)%positive ->
  exists p' : positive,
    shr_m (shr_1 (shr_record_of_loc (Zpos p) l)) = Zpos p' /\
    2 * Zpos p' <= Zpos p <= 2 * Zpos p' + 1 /\
    digits2_pos p = Pos.succ (digits2_pos p').
Proof.
  intros Hp. destruct p as [p'|p'|]; [| |lia]; exists p';
    (split; [destruct l as [|[ | | ]]; reflexivity|]);
    (split; [lia|reflexivity]).
Qed.

Lemma round_nearest_even_bounds (m : Z) (l : location) :
  m <= round_nearest_even m l <= m + 1.
Proof.
  destruct l as [|[ | | ]]; cbn [round_nearest_even]; try lia.
  destruct (Z.even m); lia.
Qed.

Lemma finish_round_53 (p : positive) (e : Z) :
  Zpos (digits2_pos p) = 53 -> -1074 <= e <= 971 ->
  finish_round (Zpos p) e = S754_finite false p e.
Proof.
  intros Hd He. unfold finish_round. rewrite (shr_fexp_53 p e _ Hd) by lia.
  cbn [shr_record_of_loc shr_m].
  replace (e <=? emax - prec) with true; [reflexivity|].
  symmetry. apply Z.leb_le. unfold emax, prec. lia.
Qed.

Lemma finish_round_carry (e : Z) :
  -1075 <= e <= 970 ->
  finish_round 9007199254740992 e
  = S754_finite false 4503599627370496 (e + 1).
Proof.
  intros He. unfold finish_round.
  rewrite (shr_fexp_54 9007199254740992 e loc_Exact) by (try reflexivity; lia).
  change (shr_m (shr_1 (shr_record_of_loc 9007199254740992 loc_Exact)))
    with 4503599627370496.
  replace (e + 1 <=? emax - prec) with true; [reflexivity|].
  symmetry. apply Z.leb_le. unfold emax, prec. lia.
Qed.

(** Rounding a 53-bit mantissa [p] at exponent [e] by location [l]. *)
Lemma finish_round_shape (p : positive) (e : Z) (l : location) :
  Zpos (digits2_pos p) = 53 -> -1074 <= e <= 970 ->
  exists (m : positive) (e' : Z),
    finish_round (round_nearest_even (Zpos p) l) e = S754_finite false m e' /\
    4503599627370496 <= Zpos m < 9007199254740992 /\
    e <= e' <= e + 1 /\
    Zpos p <= Zpos m * 2 ^ (e' - e) <= Zpos p + 1.
Proof.
  intros Hd He.
  pose proof (round_nearest_even_bounds (Zpos p) l) as Hr.
  pose proof (mantissa_53 p Hd) as Hp.
  destruct (round_nearest_even (Zpos p) l) as [|r|r] eqn:Er; try lia.
  destruct (Z.eq_dec (Zpos r) 9007199254740992) as [E|E].
  - exists 4503599627370496%positive, (e + 1).
    rewrite E, finish_round_carry by lia.
    replace (e + 1 - e) with 1 by lia. change (2 ^ 1) with 2.
    repeat split; lia.
  - assert (Hr53 : Zpos (digits2_pos r) = 53).
    { apply Z.le_antisymm.
      - apply digits2_pos_le; [lia|]. change (2 ^ 53) with 9007199254740992.
        lia.
      - apply digits2_pos_ge. change (2 ^ (53 - 1)) with 4503599627370496.
        lia. }
    exists r, e. rewrite finish_round_53 by (auto; lia).
    replace (e - e) with 0 by lia. change (2 ^ 0) with 1.
    repeat split; lia.
Qed.

(** Rounding a quotient mantissa of 53 or 54 bits: the result is finite and
    positive, at most two binades up, within two units of [q] on [q]'s
    scale. *)
Lemma binary_round_aux_shape (q : positive) (e : Z) (l : location) :
  4503599627370496 <= Zpos q < 18014398509481984 -> -1074 <= e <= 900 ->
  exists (m : positive) (e' : Z),
    binary_round_aux prec emax false (Zpos q) e l = S754_finite false m e' /\
    4503599627370496 <= Zpos m < 9007199254740992 /\
    e <= e' <= e + 2 /\
    Zpos q - 1 <= Zpos m * 2 ^ (e' - e) <= Zpos q + 2.
Proof.
  intros Hq He. rewrite binary_round_aux_finish.
  assert (Hlo : 53 <= Zpos (digits2_pos q)).
  { apply digits2_pos_ge. change (2 ^ (53 - 1)) with 4503599627370496. lia. }
  assert (Hhi : Zpos (digits2_pos q) <= 54).
  { apply digits2_pos_le; [lia|]. change (2 ^ 54) with 18014398509481984.
    lia. }
  destruct (Z.eq_dec (Zpos (digits2_pos q)) 53) as [Hd|Hd].
  - rewrite (shr_fexp_53 q e l Hd) by lia. cbn [fst snd].
    rewrite shr_m_of_loc.
    destruct (finish_round_shape q e
                (loc_of_shr_record (shr_record_of_loc (Zpos q) l)) Hd)
      as (m & e' & Hr & Hm & He' & Hv); [lia|].
    exists m, e'. repeat split; try lia; exact Hr.
  - assert (Hd54 : Zpos (digits2_pos q) = 54) by lia.
    rewrite (shr_fexp_54 q e l Hd54) by lia. cbn [fst snd].
    destruct (shr_1_halves q l) as (p' & Hp' & Hhalf & Hdig).
    { pose proof (digits2_pos_bounds q). lia. }
    rewrite Hp'.
    assert (Hd' : Zpos (digits2_pos p') = 53).
    { rewrite Hdig, Pos2Z.inj_succ in Hd54. lia. }
    destruct (finish_round_shape p' (e + 1)
                (loc_of_shr_record (shr_1 (shr_record_of_loc (Zpos q) l)))
                Hd')
      as (m & e' & Hr & Hm & He' & Hv); [lia|].
    exists m, e'. split; [exact Hr|]. split; [exact Hm|]. split; [lia|].
    assert (Hcase : e' = e + 1 \/ e' = e + 2) by lia.
    destruct Hcase as [-> | ->].
    + replace (e + 1 - (e + 1)) with 0 in Hv by lia.
      replace (e + 1 - e) with 1 by lia.
      change (2 ^ 0) with 1 in Hv. change (2 ^ 1) with 2. lia.
    + replace (e + 2 - (e + 1)) with 1 in Hv by lia.
      replace (e + 2 - e) with 2 by lia.
      change (2 ^ 1) with 2 in Hv. change (2 ^ 2) with 4. lia.
Qed.

Lemma div_eucl_div_mod (a b : Z) : Z.div_eucl a b = (a / b, a mod b).
Proof.
  unfold Z.div, Z.modulo. destruct (Z.div_eucl a b). reflexivity.
Qed.

(** The quotient of two positive doubles with full mantissas, before
    rounding. *)
Lemma SFdiv_finite_53 (mx my : positive) (ex ey : Z) :
  Zpos (digits2_pos mx) = 53 -> Zpos (digits2_pos my) = 53 ->
  -1021 <= ex - ey - 53 ->
  SFdiv prec emax (S754_finite false mx ex) (S754_finite false my ey)
  = binary_round_aux prec emax false
      (Zpos mx * 2 ^ 53 / Zpos my) (ex - ey - 53)
      (new_location (Zpos my) ((Zpos mx * 2 ^ 53) mod Zpos my)).
Proof.
  intros Hx Hy He. cbn [SFdiv xorb]. unfold SFdiv_core_binary.
  cbn [Zdigits2]. rewrite Hx, Hy.
  replace (Z.min (fexp prec emax (53 + ex - (53 + ey))) (ex - ey))
    with (ex - ey - 53)
    by (unfold fexp, SpecFloat.emin, prec, emax; lia).
  replace (ex - ey - (ex - ey - 53)) with 53 by lia.
  cbv beta iota zeta.
  rewrite Z.shiftl_mul_pow2 by lia. rewrite div_eucl_div_mod. reflexivity.
Qed.

(** The double of a positive [uint32_t]: exact, with a full mantissa. *)
Lemma of_uint32_shape (p : positive) :
  Zpos p < 4294967296 ->
  exists mx : positive,
    Prim2SF (of_uint32 (Zpos p))
    = S754_finite false mx (Zpos (digits2_pos p) - 53) /\
    Zpos (digits2_pos mx) = 53 /\
    Zpos mx = Zpos p * 2 ^ (53 - Zpos (digits2_pos p)).
Proof.
  intros Hp.
  pose proof (Prim2SF_valid (of_uint32 (Zpos p))) as Hv. revert Hv.
  unfold of_uint32. rewrite FloatAxioms.of_uint63_spec, Uint63.of_Z_spec.
  rewrite Z.mod_small
    by (change wB with 9223372036854775808; lia).
  cbn [binary_normalize].
  destruct (binary_round_exact p 0) as (mx & ex & Hr & Hex & Hmx);
    [lia|lia|].
  rewrite Hr. cbn [valid_binary]. unfold bounded, canonical_mantissa.
  intros Hv. apply andb_prop in Hv as [Hc _]. apply Z.eqb_eq in Hc.
  pose proof (digits2_pos_le p 32 ltac:(lia) Hp) as Hd.
  exists mx. replace (Zpos (digits2_pos p) - 53) with ex by lia.
  split; [reflexivity|]. split; [|exact Hmx].
  revert Hc. unfold fexp, SpecFloat.emin, prec, emax. lia.
Qed.

(** The microsecond value of a positive cycle difference [p], in integers:
    with [d] the number of bits of [p] and [q] the integer quotient of
    [p * 2^(53-d) * 2^53] by the mantissa of 600.0, the result is
    [m * 2^e] with a full mantissa [m], [e] between [d - 63] and [d - 61], and
    [m * 2^(e - (d - 63))] within two units of [q]. *)
Lemma dtus_shape (p : positive) :
  Zpos p < 4294967296 ->
  exists (m : positive) (e q : Z),
    Prim2SF (of_uint32 (Zpos p) / 600.0) = S754_finite false m e /\
    4503599627370496 <= Zpos m < 9007199254740992 /\
    Zpos (digits2_pos p) - 63 <= e <= Zpos (digits2_pos p) - 61 /\
    5277655813324800 * q
    <= Zpos p * 2 ^ (53 - Zpos (digits2_pos p)) * 9007199254740992
    < 5277655813324800 * q + 5277655813324800 /\
    q - 1 <= Zpos m * 2 ^ (e - (Zpos (digits2_pos p) - 63)) <= q + 2.
Proof.
  intros Hp.
  destruct (of_uint32_shape p Hp) as (mx & Hx & Hdx & Hmx).
  pose proof (mantissa_53 mx Hdx) as Hbx.
  pose proof (digits2_pos_le p 32 ltac:(lia) Hp) as Hd.
  assert (Hd1 : 1 <= Zpos (digits2_pos p)) by lia.
  rewrite FloatAxioms.div_spec, Prim2SF_600, Hx. unfold SF64div.
  rewrite SFdiv_finite_53; [|exact Hdx|reflexivity|lia].
  change (2 ^ 53) with 9007199254740992.
  replace (Zpos (digits2_pos p) - 53 - -43 - 53)
    with (Zpos (digits2_pos p) - 63) by lia.
  set (a := Zpos mx * 9007199254740992).
  pose proof (Z.div_mod a 5277655813324800 ltac:(lia)) as Hdiv.
  pose proof (Z.mod_pos_bound a 5277655813324800 ltac:(lia)) as Hmod.
  set (q := a / 5277655813324800) in *.
  assert (Hq : 4503599627370496 <= q < 18014398509481984)
    by (subst a; lia).
  destruct q as [|qp|qp] eqn:Eq; try lia.
  destruct (binary_round_aux_shape qp (Zpos (digits2_pos p) - 63)
              (new_location 5277655813324800 (a mod 5277655813324800)) Hq)
    as (m & e & Hr & Hm & He & Hv); [lia|].
  exists m, e, (Zpos qp). split; [exact Hr|]. split; [exact Hm|].
  split; [lia|]. split; [|exact Hv].
  rewrite <- Hmx. fold a. lia.
Qed.

Lemma compare_finite_lt (m1 m2 : positive) (e1 e2 : Z) :
  SFltb (S754_finite false m1 e1) (S754_finite false m2 e2) = true
  <-> e1 < e2 \/ (e1 = e2 /\ Zpos m1 < Zpos m2).
Proof.
  unfold SFltb. cbn [SFcompare].
  destruct (Z.compare_spec e1 e2) as [He|He|He].
  - destruct (Pos.compare_cont Eq m1 m2) eqn:Hc.
    + apply Pos.compare_eq in Hc. subst. split; [discriminate|lia].
    + apply compare_cont_lt in Hc. split; [intros _; right; lia|reflexivity].
    + apply compare_cont_gt in Hc. split; [discriminate|lia].
  - split; [intros _; left; exact He|reflexivity].
  - split; [discriminate|lia].
Qed.

(** Replace the closed powers of two of a hypothesis by their values. *)
Ltac close_pows H :=
  repeat match type of H with
         | context [2 ^ ?x] =>
           let v := eval vm_compute in (2 ^ x) in
           change (2 ^ x) with v in H
         end.

(** In the binade of [k]-bit values: fix the exponent of the quotient to one
    of its three possible values and reduce everything to linear integer
    arithmetic. *)
Ltac in_binade k Hk He Hq Hv Hb :=
  rewrite Hk in He, Hq, Hv, Hb;
  close_pows Hq; close_pows Hb;
  let Hc := fresh "Hc" in
  match type of He with
  | _ <= ?e <= _ =>
    assert (Hc : e = k - 63 \/ e = k - 62 \/ e = k - 61) by lia;
    destruct Hc as [Hc|[Hc|Hc]]; rewrite Hc in Hv |- *; close_pows Hv; lia
  end.

(** [dt / 600.0 > 500000.0] exactly when [dt > 300,000,000]. *)
Lemma above_half_iff (dt : Z) :
  0 <= dt < 4294967296 ->
  (500000.0 <? of_uint32 dt / 600.0)%float = true <-> 300000000 < dt.
Proof.
  intros Hdt.
  destruct (Z.eq_dec dt 0) as [->|H0];
    [split; [vm_compute; discriminate|lia]|].
  destruct (Z.eq_dec dt 300000000) as [->|H1];
    [split; [vm_compute; discriminate|lia]|].
  destruct dt as [|p|p]; try lia.
  destruct (dtus_shape p) as (m & e & q & Hr & Hm & He & Hq & Hv); [lia|].
  rewrite FloatAxioms.ltb_spec, Prim2SF_half, Hr. unfold sf_half.
  rewrite compare_finite_lt.
  pose proof (digits2_pos_bounds p) as Hb.
  pose proof (digits2_pos_le p 32 ltac:(lia) ltac:(lia)) as Hd32.
  set (d := Zpos (digits2_pos p)) in *.
  assert (Hd1 : 1 <= d) by (subst d; lia).
  destruct (Z_le_gt_dec 30 d) as [Hbig|Hle29].
  { assert (2 ^ 29 <= 2 ^ (d - 1)) by (apply Z.pow_le_mono_r; lia).
    change (2 ^ 29) with 536870912 in *. lia. }
  destruct (Z_le_gt_dec d 26) as [Hsmall|Hge27].
  { assert (2 ^ d <= 2 ^ 26) by (apply Z.pow_le_mono_r; lia).
    change (2 ^ 26) with 67108864 in *. lia. }
  assert (Hk : d = 27 \/ d = 28 \/ d = 29) by lia.
  destruct Hk as [Hk|[Hk|Hk]].
  - in_binade 27 Hk He Hq Hv Hb.
  - in_binade 28 Hk He Hq Hv Hb.
  - in_binade 29 Hk He Hq Hv Hb.
Qed.

(** The common part of the two comparisons with the full span: the shape of
    the quotient for a positive [dt] other than 600,000,000. *)
Ltac full_span_cases p m e q Hr Hm He Hq Hv :=
  destruct (dtus_shape p) as (m & e & q & Hr & Hm & He & Hq & Hv); [lia|];
  rewrite FloatAxioms.ltb_spec, Prim2SF_full, Hr; unfold sf_full;
  rewrite compare_finite_lt;
  let Hb := fresh "Hb" in
  let Hd32 := fresh "Hd32" in
  pose proof (digits2_pos_bounds p) as Hb;
  pose proof (digits2_pos_le p 32 ltac:(lia) ltac:(lia)) as Hd32;
  let d := fresh "d" in
  set (d := Zpos (digits2_pos p)) in *;
  let Hd1 := fresh "Hd1" in
  assert (Hd1 : 1 <= d) by (subst d; lia);
  destruct (Z_le_gt_dec 31 d) as [Hbig|Hle30];
  [ assert (2 ^ 30 <= 2 ^ (d - 1)) by (apply Z.pow_le_mono_r; lia);
    change (2 ^ 30) with 1073741824 in *; lia |];
  destruct (Z_le_gt_dec d 27) as [Hsmall|Hge28];
  [ assert (2 ^ d <= 2 ^ 27) by (apply Z.pow_le_mono_r; lia);
    change (2 ^ 27) with 134217728 in *; lia |];
  let Hk := fresh "Hk" in
  assert (Hk : d = 28 \/ d = 29 \/ d = 30) by lia;
  destruct Hk as [Hk|[Hk|Hk]];
  [ in_binade 28 Hk He Hq Hv Hb
  | in_binade 29 Hk He Hq Hv Hb
  | in_binade 30 Hk He Hq Hv Hb ].

(** [dt / 600.0 > 1000000.0] exactly when [dt > 600,000,000]. *)
Lemma above_full_iff (dt : Z) :
  0 <= dt < 4294967296 ->
  (1000000.0 <? of_uint32 dt / 600.0)%float = true <-> 600000000 < dt.
Proof.
  intros Hdt.
  destruct (Z.eq_dec dt 0) as [->|H0];
    [split; [vm_compute; discriminate|lia]|].
  destruct (Z.eq_dec dt 600000000) as [->|H1];
    [split; [vm_compute; discriminate|lia]|].
  destruct dt as [|p|p]; try lia.
  full_span_cases p m e q Hr Hm He Hq Hv.
Qed.

(** [dt / 600.0 < 1000000.0] exactly when [dt < 600,000,000]. *)
Lemma below_full_iff (dt : Z) :
  0 <= dt < 4294967296 ->
  (of_uint32 dt / 600.0 <? 1000000.0)%float = true <-> dt < 600000000.
Proof.
  intros Hdt.
  destruct (Z.eq_dec dt 0) as [->|H0];
    [split; [reflexivity|intros _; vm_compute; reflexivity]|].
  destruct (Z.eq_dec dt 600000000) as [->|H1];
    [split; [vm_compute; discriminate|lia]|].
  destruct dt as [|p|p]; try lia.
  full_span_cases p m e q Hr Hm He Hq Hv.
Qed.

(** X12. The drift classes in cycles.  For a 32-bit cycle difference [dt]
    the rounding of [dt / 600.0] never moves a value across a threshold: the
    record carries the minus sign (and [1000000.0 - dt / 600.0]) exactly when
    [300,000,000 < dt < 600,000,000]; it is clamped to zero exactly when
    [dt > 600,000,000]; in the remaining cases, [dt <= 300,000,000] and
    [dt = 600,000,000], [dt / 600.0] is printed as it is. *)
Theorem drift_classes_in_cycles (dt : Z) :
  0 <= dt < 4294967296 ->
  (fst (drift_report dt) = true <-> 300000000 < dt < 600000000) /\
  (300000000 < dt < 600000000 ->
   drift_report dt = (true, (1000000.0 - of_uint32 dt / 600.0)%float)) /\
  (600000000 < dt -> drift_report dt = (false, 0.0%float)) /\
  (dt <= 300000000 \/ dt = 600000000 ->
   drift_report dt = (false, (of_uint32 dt / 600.0)%float)).
Proof.
  intros Hdt.
  pose proof (above_half_iff dt Hdt) as Hhalf.
  pose proof (below_full_iff dt Hdt) as Hbelow.
  pose proof (above_full_iff dt Hdt) as Habove.
  unfold drift_report.
  destruct (500000.0 <? of_uint32 dt / 600.0)%float;
    destruct (of_uint32 dt / 600.0 <? 1000000.0)%float;
    destruct (1000000.0 <? of_uint32 dt / 600.0)%float;
    cbn [andb fst snd];
    repeat split; intros; try reflexivity; try discriminate;
    try (exfalso; intuition lia); intuition lia.
Qed.

(** One cycle difference of each class. *)
Lemma drift_classes_in_cycles_witness :
  drift_report 450000000 = (true, 250000.0%float) /\
  drift_report 900000000 = (false, 0.0%float) /\
  drift_report 150000000 = (false, 250000.0%float).
Proof.
  destruct (drift_classes_in_cycles 450000000) as (_ & H1 & _); [lia|].
  destruct (drift_classes_in_cycles 900000000) as (_ & _ & H2 & _); [lia|].
  destruct (drift_classes_in_cycles 150000000) as (_ & _ & _ & H3); [lia|].
  rewrite (H1 ltac:(lia)), (H2 ltac:(lia)), (H3 ltac:(lia)).
  repeat split; vm_compute; reflexivity.
Defined.
